(** * Didact: element builder, synchronous render and idle-time work loop

    A shallow embedding of the repository's JavaScript:
    - [createElement] / [createTextElement] / [render]  (the Didact module),
    - [workLoop] / [performUnitOfWork] and the module-level cursor
      [nextUnitOfWork]                                  (src/Didact.js),
    - the application                                   (src/index.js).

    JavaScript values are modelled by the inductive [Value]; objects are
    finite maps from property names to values.  The host document is met
    through the interface [Host], whose requests may be refused; [render] is
    [renderOn] on the host that grants every request. *)

From Stdlib Require Import QArith.
From stdpp Require Import gmap strings list fin_maps pretty.

#[local] Set Warnings "-register-all".
#[local] Open Scope string_scope.
#[local] Open Scope list_scope.

(** ** JavaScript values *)

Module JS.

(** The value universe.  Numbers are the integral ones; functions are opaque:
    they are stored and passed around, and the one call the code can make of
    one (the [forEach] of a children value that is not an array) is left to
    the host.  Objects carry no conversion method of their own. *)
Inductive Value : Type :=
| VUndefined
| VNull
| VBool (b : bool)
| VNum (n : Z)
| VStr (s : string)
| VFun (id : nat)
| VArr (items : list Value)
| VObj (fields : gmap string Value).

(** [typeof v] *)
Definition typeof (v : Value) : string :=
  match v with
  | VUndefined => "undefined"
  | VNull => "object"
  | VBool _ => "boolean"
  | VNum _ => "number"
  | VStr _ => "string"
  | VFun _ => "function"
  | VArr _ => "object"
  | VObj _ => "object"
  end.

(** ToBoolean, as used by the condition of [while (nextUnitOfWork && ...)]. *)
Definition truthy (v : Value) : bool :=
  match v with
  | VUndefined | VNull => false
  | VBool b => b
  | VNum n => negb (n =? 0)%Z
  | VStr s => negb (String.eqb s EmptyString)
  | VFun _ | VArr _ | VObj _ => true
  end.

(** The primitive (scalar) values of the language. *)
Definition is_scalar (v : Value) : bool :=
  match v with
  | VUndefined | VNull | VBool _ | VNum _ | VStr _ => true
  | VFun _ | VArr _ | VObj _ => false
  end.

Fixpoint chars (s : string) : list Value :=
  match s with
  | EmptyString => []
  | String c s' => VStr (String c EmptyString) :: chars s'
  end.

(** Index-keyed properties [{0: x0, 1: x1, ...}] of an array or a string. *)
Definition indexed (l : list Value) : gmap string Value :=
  list_to_map (imap (λ i v, (pretty i, v)) l).

(** Own enumerable string-keyed properties of a value, as copied by object
    spread [{...v}] and listed by [Object.keys(v)] (after ToObject). *)
Definition ownProps (v : Value) : gmap string Value :=
  match v with
  | VObj fields => fields
  | VArr items => indexed items
  | VStr s => indexed (chars s)
  | VUndefined | VNull | VBool _ | VNum _ | VFun _ => ∅
  end.

Definition nullish (v : Value) : bool :=
  match v with
  | VUndefined | VNull => true
  | _ => false
  end.

End JS.
Import JS.

(** ** Outcomes of effectful code: normal return, a thrown exception, or the
    model's iteration bound reached. *)

Inductive Exn : Type :=
| TypeError
| HostError (code : nat).

Inductive result (A : Type) : Type :=
| Return (a : A)
| Throw (e : Exn)
| OutOfFuel.
Arguments Return {A} a.
Arguments Throw {A} e.
Arguments OutOfFuel {A}.

#[global] Instance result_ret : MRet result := λ A a, Return a.
#[global] Instance result_bind : MBind result := λ A B f m,
  match m with
  | Return a => f a
  | Throw e => Throw e
  | OutOfFuel => OutOfFuel
  end.

(** ** The element builder (createElement / createTextElement) *)

Definition TEXT_ELEMENT : string := "TEXT_ELEMENT".

(** [v == 'TEXT_ELEMENT'], the loose comparison of [render].  A string is
    compared as it is; a number or a boolean is compared with the number the
    marker converts to, which is NaN; null and undefined are loosely equal
    only to each other; an array converts to the comma-joined strings of its
    entries, which can be the comma-free marker only for a one-entry array;
    plain objects and functions convert to text that is never the marker. *)
Fixpoint looseEqMarker (v : Value) : bool :=
  match v with
  | VStr t => String.eqb t TEXT_ELEMENT
  | VArr [x] => looseEqMarker x
  | _ => false
  end.

(** [{ type: 'TEXT_ELEMENT', props: { nodeValue: text, children: [] } }] *)
Definition createTextElement (text : Value) : Value :=
  VObj {[ "type" := VStr TEXT_ELEMENT;
          "props" := VObj {[ "nodeValue" := text; "children" := VArr [] ]} ]}.

(** The callback of [children.map]:
    [typeof child === 'object' ? child : createTextElement(child)] *)
Definition wrapChild (child : Value) : Value :=
  if String.eqb (typeof child) "object" then child else createTextElement child.

(** [{ type, props: { ...props, children: children.map(...) } }] *)
Definition createElement (type props : Value) (children : list Value) : Value :=
  VObj {[ "type" := type;
          "props" := VObj (<["children" := VArr (wrapChild <$> children)]> (ownProps props)) ]}.

(** Reading an element back. *)
Definition elementType (e : Value) : option Value :=
  match e with
  | VObj fields => fields !! "type"
  | _ => None
  end.

Definition elementProps (e : Value) : option (gmap string Value) :=
  match e with
  | VObj fields =>
      match fields !! "props" with
      | Some (VObj props) => Some props
      | _ => None
      end
  | _ => None
  end.

Definition elementChildren (e : Value) : option (list Value) :=
  match elementProps e with
  | Some props =>
      match props !! "children" with
      | Some (VArr kids) => Some kids
      | _ => None
      end
  | None => None
  end.

(** The attribute mapping of an element: its props without the reserved key. *)
Definition elementAttributes (e : Value) : option (gmap string Value) :=
  delete "children" <$> elementProps e.

(** A well-formed Element has a kind, an attribute mapping and a children
    sequence. *)
Definition is_element (v : Value) : bool :=
  match elementType v, elementChildren v with
  | Some _, Some _ => true
  | _, _ => false
  end.

(** A TEXT element for scalar [c]: kind TEXT, single attribute [nodeValue]
    holding [c], no children. *)
Definition is_text_element_of (c v : Value) : Prop :=
  elementType v = Some (VStr TEXT_ELEMENT) ∧
  elementAttributes v = Some {[ "nodeValue" := c ]} ∧
  elementChildren v = Some [].

(** [element.type], [element.props], [props.children]: property read.  Reading
    a property of null or undefined throws; a missing property reads as
    undefined.  (Only used with the keys [type], [props], [children],
    [forEach] on a value that is not an array, and with own keys, none of
    which a built-in prototype supplies.) *)
Definition getProp (v : Value) (key : string) : result Value :=
  if nullish v then Throw TypeError
  else Return (default VUndefined (ownProps v !! key)).

(** [Object.keys(v)]; the order of the keys of a finite map stands for the
    insertion order, which a host that stores the properties does not
    observe. *)
Definition Object_keys (v : Value) : result (list string) :=
  if nullish v then Throw TypeError
  else Return (map_to_list (ownProps v)).*1.

(** [xs.forEach(x => f(x))] for a callback that may throw, threading the
    object the callback mutates. *)
Fixpoint forEach {A S : Type} (f : A → S → result S) (xs : list A) (s : S) : result S :=
  match xs with
  | [] => Return s
  | x :: xs' => s' ← f x s; forEach f xs' s'
  end.

(** ** The host document tree

    A node of the host has a kind, the properties script has assigned on it,
    and child nodes. *)

Inductive NodeKind : Type :=
| TextNode
| TaggedNode (tag : Value).

Inductive Node : Type :=
| mkNode (kind : NodeKind) (props : gmap string Value) (children : list Node).

Definition nodeKind (n : Node) : NodeKind := let 'mkNode k _ _ := n in k.
Definition nodeProps (n : Node) : gmap string Value := let 'mkNode _ p _ := n in p.
Definition childNodes (n : Node) : list Node := let 'mkNode _ _ c := n in c.

(** [document.createTextNode('')]: a fresh text node; this request is never
    refused. *)
Definition document_createTextNode : Node := mkNode TextNode ∅ [].

(** What the host's operations do to the tree when the host grants them
    and they have no further effect: a fresh node of a tag, a property stored
    on a node, a child added after the last child. *)
Definition document_createElement (tag : Value) : Node := mkNode (TaggedNode tag) ∅ [].

Definition setProperty (name : string) (v : Value) (n : Node) : Node :=
  mkNode (nodeKind n) (<[name := v]> (nodeProps n)) (childNodes n).

Definition appendChild (parent child : Node) : Node :=
  mkNode (nodeKind parent) (nodeProps parent) (childNodes parent ++ [child]).

(** The host as [render] meets it.  Every request may be refused with an
    exception (an invalid tag name, a property without a setter, a parent
    that takes no children), and what a granted request does to the node is
    the host's business (a setter may build child nodes, an assigned property
    may shadow a method):
    - [host_createElement tag] is [document.createElement(tag)];
    - [host_assign name v dom] is [dom[name] = v];
    - [host_appendChild parent child] is [parent.appendChild(child)];
    - [host_call f this dom] is the call [this.forEach(child => render(child, dom))]
      when [this] is not an array and its [forEach] is the function value
      [f]; the result is [dom] after the call. *)
Record Host : Type := mkHost {
  host_createElement : Value → result Node;
  host_assign : string → Value → Node → result Node;
  host_appendChild : Node → Node → result Node;
  host_call : nat → Value → Node → result Node
}.

(** Number of nodes strictly below a node. *)
Fixpoint descendants (n : Node) : nat :=
  let 'mkNode _ _ kids := n in
  (fix go (l : list Node) : nat :=
     match l with
     | [] => 0
     | k :: l' => S (descendants k) + go l'
     end) kids.

(** ** render *)

(** [key => key !== 'children'] *)
Definition isProperty (key : string) : bool := negb (String.eqb key "children").

(** The names the property-assignment loop of [render] visits:
    [Object.keys(element.props).filter(isProperty)]. *)
Definition propertyNames (props : Value) : result (list string) :=
  keys ← Object_keys props; Return (filter (λ k, isProperty k = true) keys).

(** The kind of the node [render] asks for:
    [type == 'TEXT_ELEMENT' ? document.createTextNode('') : document.createElement(type)] *)
Definition kindFor (type : Value) : NodeKind :=
  if looseEqMarker type then TextNode else TaggedNode type.

(** The store left by assigning [m]'s value to every name of a list. *)
Definition assignAll (m : gmap string Value) (names : list string)
    (store : gmap string Value) : gmap string Value :=
  foldl (λ acc name, <[name := default VUndefined (m !! name)]> acc) store names.

Section RenderOn.

Variable h : Host.

(** The first half of [render]: the node is created from [element.type] and
    every property name is assigned, [dom[name] = element.props[name]]. *)
Definition renderNodeOn (element : Value) : result Node :=
  type ← getProp element "type";
  dom ← (if looseEqMarker type
         then Return document_createTextNode
         else host_createElement h type);
  props ← getProp element "props";
  names ← propertyNames props;
  forEach (λ name dom, v ← getProp props name; host_assign h name v dom) names dom.

(** [element.props.children.forEach(child => render(child, dom))]: an array
    is iterated; any other value is asked for its [forEach], which is called
    when it is a function and is a TypeError otherwise. *)
Definition forEachChild (renderChild : Value → Node → result Node)
    (children : Value) (dom : Node) : result Node :=
  match children with
  | VArr kids => forEach renderChild kids dom
  | _ =>
      f ← getProp children "forEach";
      match f with
      | VFun id => host_call h id children dom
      | _ => Throw TypeError
      end
  end.

(** [render(element, container)]; the result is the container after the call.
    [fuel] bounds the nesting depth of the recursive calls. *)
Fixpoint renderOn (fuel : nat) (element : Value) (container : Node) : result Node :=
  match fuel with
  | 0 => OutOfFuel
  | S fuel' =>
      dom ← renderNodeOn element;
      props ← getProp element "props";
      children ← getProp props "children";
      dom' ← forEachChild (renderOn fuel') children dom;
      host_appendChild h container dom'
  end.

End RenderOn.

(** A host that grants every request and stores every property, and whose
    function values return at once: the host of the scenarios below, whose
    tags are valid names and whose properties are plain. *)
Definition acceptingHost : Host :=
  {| host_createElement := λ tag, Return (document_createElement tag);
     host_assign := λ name v dom, Return (setProperty name v dom);
     host_appendChild := λ parent child, Return (appendChild parent child);
     host_call := λ _ _ dom, Return dom |}.

(** [render] on the accepting host. *)
Definition render : nat → Value → Node → result Node := renderOn acceptingHost.

(** Elements whose children, and theirs, down to the leaves within [depth]
    levels, are all well-formed Elements. *)
Fixpoint wellFormed (depth : nat) (e : Value) : bool :=
  match depth with
  | 0 => false
  | S d =>
      is_element e &&
      match elementChildren e with
      | Some kids => forallb (wellFormed d) kids
      | None => false
      end
  end.

(** The host subtree that mirrors a well-formed element of at most [depth]
    levels: one node per element, carrying the element's props without
    [children]. *)
Fixpoint hostTreeOf (depth : nat) (e : Value) : Node :=
  match depth with
  | 0 => document_createTextNode
  | S d =>
      mkNode
        (kindFor (default VUndefined (elementType e)))
        (delete "children" (default ∅ (elementProps e)))
        (hostTreeOf d <$> default [] (elementChildren e))
  end.

(** The host grants, and stores plainly, every request that mounting the
    element makes: it creates a node for each kind that is not the TEXT
    marker, stores each prop other than [children] on the fresh node, and
    appends each child's subtree under the node of its parent. *)
Fixpoint hostMounts (h : Host) (depth : nat) (e : Value) : Prop :=
  match depth with
  | 0 => True
  | S d =>
      let type := default VUndefined (elementType e) in
      let props := default ∅ (elementProps e) in
      let kids := default [] (elementChildren e) in
      (looseEqMarker type = false →
       host_createElement h type = Return (document_createElement type))
      ∧ (∀ name v dom, props !! name = Some v → name ≠ "children" →
           nodeKind dom = kindFor type → childNodes dom = [] →
           host_assign h name v dom = Return (setProperty name v dom))
      ∧ (∀ kid dom, kid ∈ kids → nodeKind dom = kindFor type →
           nodeProps dom = delete "children" props →
           host_appendChild h dom (hostTreeOf d kid)
           = Return (appendChild dom (hostTreeOf d kid)))
      ∧ Forall (hostMounts h d) kids
  end.


(** ** The scheduler (src/Didact.js) *)

(** The callbacks handed to [requestIdleCallback]; the module registers only
    [workLoop]. *)
Inductive Callback : Type :=
| CbWorkLoop.

(** The [deadline] argument of an idle callback: [timeRemaining k] is what the
    [k]-th call of [deadline.timeRemaining()] returns, in milliseconds. *)
Record Deadline : Type := mkDeadline { timeRemaining : nat → Q }.

(** [deadline.timeRemaining() < 1] *)
Definition belowThreshold (t : Q) : bool := negb (Qle_bool 1 t).

(** What the module and the host share.  [nextUnitOfWork] is the module-level
    cursor; [idleCallbacks] is the host's queue of one-shot idle callbacks;
    [hostTree] is the document tree under the container; [processed] logs the
    arguments of the calls of [performUnitOfWork], oldest first. *)
Record World : Type := mkWorld {
  nextUnitOfWork : Value;
  idleCallbacks : list Callback;
  hostTree : Node;
  processed : list Value
}.

Definition setCursor (v : Value) (w : World) : World :=
  mkWorld v (idleCallbacks w) (hostTree w) (processed w).

Definition setIdleCallbacks (q : list Callback) (w : World) : World :=
  mkWorld (nextUnitOfWork w) q (hostTree w) (processed w).

Definition setHostTree (t : Node) (w : World) : World :=
  mkWorld (nextUnitOfWork w) (idleCallbacks w) t (processed w).

Definition logProcessed (fiber : Value) (w : World) : World :=
  mkWorld (nextUnitOfWork w) (idleCallbacks w) (hostTree w) (processed w ++ [fiber]).

(** [requestIdleCallback(cb)]: the host queues the callback for one call. *)
Definition requestIdleCallback (cb : Callback) (w : World) : World :=
  setIdleCallbacks (idleCallbacks w ++ [cb]) w.

(** A unit-of-work procedure takes the pending fiber, may work on the host
    tree, and returns the next fiber or throws. *)
Definition UnitOfWork : Type := Value → Node → result Value * Node.

Section WorkLoop.

Variable unitOfWork : UnitOfWork.

(** The [while] loop of [workLoop]; [reads] counts the calls of
    [deadline.timeRemaining()] made so far and [fuel] bounds the iterations.
<<
    while (nextUnitOfWork && !shouldYield) {
        nextUnitOfWork = performUnitOfWork(nextUnitOfWork)
        shouldYield = deadline.timeRemaining() < 1
    }
>> *)
Fixpoint whileLoop (fuel : nat) (deadline : Deadline) (reads : nat)
    (shouldYield : bool) (w : World) : result unit * World :=
  if truthy (nextUnitOfWork w) && negb shouldYield then
    match fuel with
    | 0 => (OutOfFuel, w)
    | S fuel' =>
        let '(r, host') := unitOfWork (nextUnitOfWork w) (hostTree w) in
        let w1 := logProcessed (nextUnitOfWork w) (setHostTree host' w) in
        match r with
        | Return next =>
            whileLoop fuel' deadline (S reads)
              (belowThreshold (timeRemaining deadline reads))
              (setCursor next w1)
        | Throw e => (Throw e, w1)
        | OutOfFuel => (OutOfFuel, w1)
        end
    end
  else (Return (), w).

(** [workLoop(deadline)]: the loop, then [requestIdleCallback(workLoop)]. *)
Definition workLoopWith (fuel : nat) (deadline : Deadline) (w : World)
    : result unit * World :=
  match whileLoop fuel deadline 0 false w with
  | (Return _, w') => (Return (), requestIdleCallback CbWorkLoop w')
  | (Throw e, w') => (Throw e, w')
  | (OutOfFuel, w') => (OutOfFuel, w')
  end.

(** One idle period of the host: the oldest queued callback is taken off the
    queue and called with the period's deadline. *)
Definition idleSliceWith (fuel : nat) (deadline : Deadline) (w : World)
    : result unit * World :=
  match idleCallbacks w with
  | [] => (Return (), w)
  | CbWorkLoop :: rest => workLoopWith fuel deadline (setIdleCallbacks rest w)
  end.

(** Successive idle periods.  An exception thrown by a callback is reported by
    the host and does not stop later periods; [None] when the iteration bound
    was too small for some period. *)
Fixpoint idleSlicesWith (fuel : nat) (deadlines : list Deadline) (w : World)
    : option World :=
  match deadlines with
  | [] => Some w
  | d :: ds =>
      match idleSliceWith fuel d w with
      | (OutOfFuel, _) => None
      | (_, w') => idleSlicesWith fuel ds w'
      end
  end.

End WorkLoop.

(** [loopReaches unitOfWork d k w w1]: an invocation of the work loop entered
    in world [w] with deadline [d] has completed [k] units of work, each of
    them returning, and stands in world [w1] with [shouldYield] false, about
    to test the cursor again. *)
Inductive loopReaches (unitOfWork : UnitOfWork) (d : Deadline)
    : nat → World → World → Prop :=
| reaches_entry w : loopReaches unitOfWork d 0 w w
| reaches_next k w w1 next host' :
    loopReaches unitOfWork d k w w1 →
    truthy (nextUnitOfWork w1) = true →
    unitOfWork (nextUnitOfWork w1) (hostTree w1) = (Return next, host') →
    belowThreshold (timeRemaining d k) = false →
    loopReaches unitOfWork d (S k) w
      (setCursor next (logProcessed (nextUnitOfWork w1) (setHostTree host' w1))).

(** [function performUnitOfWork(nextUnitOfWork) { // todo }]: the body is
    empty, so the call returns undefined and touches nothing. *)
Definition performUnitOfWork : UnitOfWork :=
  λ nextUnitOfWork host, (Return VUndefined, host).

Definition workLoop := workLoopWith performUnitOfWork.
Definition idleSlice := idleSliceWith performUnitOfWork.
Definition idleSlices := idleSlicesWith performUnitOfWork.

(** The state after the module is loaded: [let nextUnitOfWork = null] and the
    top-level [requestIdleCallback(workLoop)]. *)
Definition initialWorld (container : Node) : World :=
  requestIdleCallback CbWorkLoop (mkWorld VNull [] container []).

(** [Didact.render(element, container)] as the application calls it, with the
    container being the root of the host tree.  [render] has no access to the
    cursor of the scheduler module. *)
Definition Didact_renderOn (h : Host) (fuel : nat) (element : Value) (w : World)
    : result unit * World :=
  match renderOn h fuel element (hostTree w) with
  | Return container' => (Return (), setHostTree container' w)
  | Throw e => (Throw e, w)
  | OutOfFuel => (OutOfFuel, w)
  end.

(** The same on the accepting host. *)
Definition Didact_render : nat → Value → World → result unit * World :=
  Didact_renderOn acceptingHost.

(** A budget that is spent from the first reading on. *)
Definition zeroBudget : Deadline := mkDeadline (λ _, 0%Q).

(** Modelled from the spec: the root Fiber of a mount pass (no code of the
    repository builds a fiber): the source element, no host node of its own,
    and no parent, child or sibling yet. *)
Definition rootFiber (element : Value) : Value :=
  VObj {[ "element" := element; "hostNode" := VNull; "parent" := VNull;
          "child" := VNull; "sibling" := VNull ]}.

(** The tree of the traversal example: div -> h1 -> [p, a], and h2 next to
    h1. *)
Definition exampleTree : Value :=
  createElement (VStr "div") VNull
    [ createElement (VStr "h1") VNull
        [ createElement (VStr "p") VNull []; createElement (VStr "a") VNull [] ];
      createElement (VStr "h2") VNull [] ].

Definition emptyContainer : Node := document_createElement (VStr "div").

(** What one call of [workLoop] does to the cursor and the log when
    [performUnitOfWork] is the empty function: a pending fiber is passed to
    it once, and the cursor becomes undefined. *)
Definition advance (w : World) : World :=
  if truthy (nextUnitOfWork w)
  then setCursor VUndefined (logProcessed (nextUnitOfWork w) w)
  else w.

(** Number of elements of a tree, the root included. *)
Fixpoint countElements (depth : nat) (e : Value) : nat :=
  match depth with
  | 0 => 0
  | S d => S (sum_list (countElements d <$> default [] (elementChildren e)))
  end.


(** The worlds the application can be in: the module is loaded, and then the
    application calls [Didact.render] (which may return or throw) and the host
    grants idle periods, in any order and any number of times. *)
Inductive reachable (container : Node) : World → Prop :=
| reach_load : reachable container (initialWorld container)
| reach_render w fuel element :
    reachable container w →
    reachable container (Didact_render fuel element w).2
| reach_idle w fuel d :
    reachable container w →
    reachable container (idleSlice (S fuel) d w).2.

(** src/index.js: the element
    [<div style="background: salmon"><h1>Hello world</h1></div>]. *)
Definition index_element : Value :=
  createElement (VStr "div") (VObj {[ "style" := VStr "background: salmon" ]})
    [createElement (VStr "h1") VNull [VStr "Hello world"]].

(** src/index.js, run after the module is loaded:
    [Didact.render(element, container)]. *)
Definition index_js (fuel : nat) (container : Node) : result unit * World :=
  Didact_render fuel index_element (initialWorld container).

(** * Properties *)

(** ** The element builder *)

Section Builder.

Implicit Types (type props child : Value) (children : list Value).

Lemma elementType_createElement type props children :
  elementType (createElement type props children) = Some type.
Proof. reflexivity. Qed.

Lemma elementProps_createElement type props children :
  elementProps (createElement type props children)
  = Some (<["children" := VArr (wrapChild <$> children)]> (ownProps props)).
Proof. reflexivity. Qed.

Lemma elementChildren_createElement type props children :
  elementChildren (createElement type props children) = Some (wrapChild <$> children).
Proof.
  unfold elementChildren. rewrite elementProps_createElement.
  by rewrite lookup_insert_eq.
Qed.

Lemma is_element_createElement type props children :
  is_element (createElement type props children) = true.
Proof.
  unfold is_element.
  by rewrite elementType_createElement, elementChildren_createElement.
Qed.

Lemma createTextElement_is_text text :
  is_text_element_of text (createTextElement text).
Proof. by repeat split. Qed.

Lemma is_element_createTextElement text :
  is_element (createTextElement text) = true.
Proof. reflexivity. Qed.

(** A child whose [typeof] is not ['object'] is wrapped. *)
Lemma wrapChild_non_object child :
  typeof child ≠ "object" → wrapChild child = createTextElement child.
Proof. by destruct child. Qed.

(** A child whose [typeof] is ['object'] is kept as it is. *)
Lemma wrapChild_object child :
  typeof child = "object" → wrapChild child = child.
Proof. by destruct child. Qed.

(** Every scalar but null is wrapped into its TEXT element. *)
Lemma wrapChild_scalar child :
  is_scalar child = true → child ≠ VNull →
  is_text_element_of child (wrapChild child).
Proof.
  intros Hs Hn. rewrite wrapChild_non_object; [apply createTextElement_is_text|].
  by destruct child.
Qed.

Lemma createElement_scalar_child type props before child after :
  is_scalar child = true → child ≠ VNull →
  ∃ kids, elementChildren (createElement type props (before ++ child :: after)) = Some kids
          ∧ ∃ entry, kids !! length before = Some entry ∧ is_text_element_of child entry.
Proof.
  intros Hs Hn. eexists. split; [apply elementChildren_createElement|].
  exists (wrapChild child). split; [|by apply wrapChild_scalar].
  rewrite fmap_app, fmap_cons.
  rewrite lookup_app_r by (by rewrite length_fmap).
  by rewrite length_fmap, Nat.sub_diag.
Qed.

(** The element of the notes:
    [createElement('div', {id: 'foo'}, createElement('a', null, 'bar'), createElement('b'))]
    has two children, an [a] holding the TEXT element of ['bar'] and a
    childless [b]. *)
Example createElement_div_a_b :
  let a := createElement (VStr "a") VNull [VStr "bar"] in
  let b := createElement (VStr "b") VUndefined [] in
  elementChildren (createElement (VStr "div") (VObj {[ "id" := VStr "foo" ]}) [a; b])
  = Some [a; b]
  ∧ elementAttributes (createElement (VStr "div") (VObj {[ "id" := VStr "foo" ]}) [a; b])
    = Some {[ "id" := VStr "foo" ]}
  ∧ elementChildren a = Some [createTextElement (VStr "bar")]
  ∧ elementChildren b = Some [].
Proof. by vm_compute. Qed.

End Builder.

(** ** render *)

Section Render.

Implicit Types (element props : Value) (m : gmap string Value) (dom : Node).

Lemma assignAll_lookup m names store j :
  assignAll m names store !! j
  = if decide (j ∈ names) then Some (default VUndefined (m !! j)) else store !! j.
Proof.
  unfold assignAll. revert store. induction names as [|k names IH]; intros store.
  - simpl. destruct (decide (j ∈ [])) as [Hin|]; [|done]. by apply elem_of_nil in Hin.
  - simpl. rewrite IH.
    destruct (decide (j ∈ names)) as [Hin|Hout].
    + by rewrite decide_True by set_solver.
    + destruct (decide (j = k)) as [->|Hne].
      * rewrite decide_True by set_solver. by rewrite lookup_insert_eq.
      * rewrite decide_False; [by rewrite lookup_insert_ne|].
        intros [->|Hin]%elem_of_cons; done.
Qed.

Lemma elem_of_property_keys m j :
  j ∈ filter (λ k, isProperty k = true) (map_to_list m).*1
  ↔ j ≠ "children" ∧ is_Some (m !! j).
Proof.
  rewrite list_elem_of_filter, list_elem_of_fmap. unfold isProperty.
  split.
  - intros [Hp [[k v] [-> Hkv]]]. apply elem_of_map_to_list in Hkv. simpl in *.
    split; [|by eexists].
    intros ->. by rewrite String.eqb_refl in Hp.
  - intros [Hne [v Hv]]. split.
    + apply negb_true_iff, String.eqb_neq. done.
    + exists (j, v). split; [done|]. by apply elem_of_map_to_list.
Qed.

Lemma assignAll_property_keys m :
  assignAll m (filter (λ k, isProperty k = true) (map_to_list m).*1) ∅
  = delete "children" m.
Proof.
  apply map_eq. intros j. rewrite assignAll_lookup.
  destruct (decide (j ∈ _)) as [Hin|Hout].
  - apply elem_of_property_keys in Hin as [Hne [v Hv]].
    by rewrite lookup_delete_ne, Hv.
  - rewrite lookup_empty. symmetry.
    destruct (decide (j = "children")) as [->|Hne]; [apply lookup_delete_eq|].
    rewrite lookup_delete_ne by done.
    destruct (m !! j) as [v|] eqn:Hv; [|done].
    exfalso. apply Hout, elem_of_property_keys. split; [done|by eexists].
Qed.

Lemma getProp_object v key :
  nullish v = false → getProp v key = Return (default VUndefined (ownProps v !! key)).
Proof. unfold getProp. by intros ->. Qed.

Lemma propertyNames_object p :
  propertyNames (VObj p) = Return (filter (λ k, isProperty k = true) (map_to_list p).*1).
Proof. reflexivity. Qed.

Lemma forEach_assign h props names dom :
  nullish props = false →
  (∀ name dom', name ∈ names →
     nodeKind dom' = nodeKind dom → childNodes dom' = childNodes dom →
     host_assign h name (default VUndefined (ownProps props !! name)) dom'
     = Return (setProperty name (default VUndefined (ownProps props !! name)) dom')) →
  forEach (λ name dom, v ← getProp props name; host_assign h name v dom) names dom
  = Return (mkNode (nodeKind dom) (assignAll (ownProps props) names (nodeProps dom))
              (childNodes dom)).
Proof.
  intros Hn. revert dom. induction names as [|k names IH]; intros dom Hstore.
  - by destruct dom.
  - cbn [forEach]. rewrite (getProp_object props k Hn). cbn [mbind result_bind].
    rewrite Hstore by (done || by left). cbn [mbind result_bind].
    rewrite IH; [by destruct dom|].
    intros name dom' Hin Hk Hc. apply Hstore; [by right|done..].
Qed.

(** On a host that creates the node and stores the props, the first half of
    [render] yields the fresh node carrying the props without [children]. *)
Lemma renderNodeOn_stores h fields p :
  fields !! "props" = Some (VObj p) →
  (looseEqMarker (default VUndefined (fields !! "type")) = false →
   host_createElement h (default VUndefined (fields !! "type"))
   = Return (document_createElement (default VUndefined (fields !! "type")))) →
  (∀ name v dom, p !! name = Some v → name ≠ "children" →
     nodeKind dom = kindFor (default VUndefined (fields !! "type")) →
     childNodes dom = [] →
     host_assign h name v dom = Return (setProperty name v dom)) →
  renderNodeOn h (VObj fields)
  = Return (mkNode (kindFor (default VUndefined (fields !! "type")))
              (delete "children" p) []).
Proof.
  intros Hfp Hcreate Hstore. unfold renderNodeOn.
  rewrite !(getProp_object (VObj fields)) by done. cbn [mbind result_bind ownProps].
  rewrite Hfp. change (default VUndefined (Some (VObj p))) with (VObj p).
  rewrite propertyNames_object.
  set (type := default VUndefined (fields !! "type")) in *.
  assert (Hdom : (if looseEqMarker type then Return document_createTextNode
                  else host_createElement h type)
                 = Return (mkNode (kindFor type) ∅ [])).
  { unfold kindFor. destruct (looseEqMarker type); [done|]. by rewrite Hcreate. }
  rewrite Hdom. cbn [mbind result_bind].
  rewrite forEach_assign; [by rewrite assignAll_property_keys|done|].
  intros name dom' Hin Hk Hc. cbn [ownProps].
  apply elem_of_property_keys in Hin as [Hne [v Hv]]. rewrite Hv.
  by apply Hstore.
Qed.

Lemma forEach_renderOn h n K P kids dom :
  Forall (λ k, ∀ c, nodeKind c = K → nodeProps c = P →
                    renderOn h n k c = Return (appendChild c (hostTreeOf n k))) kids →
  nodeKind dom = K → nodeProps dom = P →
  forEach (renderOn h n) kids dom
  = Return (mkNode K P (childNodes dom ++ (hostTreeOf n <$> kids))).
Proof.
  intros H. revert dom. induction H as [|k kids Hk _ IH]; intros dom HK HP; simpl.
  - rewrite app_nil_r. destruct dom. simpl in *. by subst.
  - rewrite Hk by done. simpl. rewrite IH by done. simpl. by rewrite <- app_assoc.
Qed.

(** On a host that grants what mounting the element asks for, [render]
    returns, and the container has gained the mirror of the element as its
    last child. *)
Lemma renderOn_mounts h n element container :
  wellFormed n element = true →
  hostMounts h n element →
  host_appendChild h container (hostTreeOf n element)
  = Return (appendChild container (hostTreeOf n element)) →
  renderOn h n element container = Return (appendChild container (hostTreeOf n element)).
Proof.
  revert element container.
  induction n as [|n IH]; intros element container Hwf Hhost Happ; [done|].
  simpl in Hwf. apply andb_true_iff in Hwf as [Hel Hkids].
  unfold is_element in Hel.
  destruct (elementType element) as [ty|] eqn:Hty; [|done].
  destruct (elementChildren element) as [kids|] eqn:Hch; [|done].
  unfold elementChildren in Hch.
  destruct (elementProps element) as [p|] eqn:Hp; [|done].
  destruct element as [| | | | | | |fields]; try done.
  simpl in Hty, Hp.
  destruct (fields !! "props") as [[| | | | | | |p']|] eqn:Hfp; try done.
  injection Hp as ->.
  destruct (p !! "children") as [[| | | | | |kids'|]|] eqn:Hpc; try done.
  injection Hch as ->.
  cbn [hostMounts] in Hhost. cbn [hostTreeOf] in Happ |- *.
  unfold elementChildren in Hhost, Happ |- *. simpl in Hhost, Happ |- *.
  rewrite Hfp, Hty in Hhost, Happ |- *. simpl in Hhost, Happ |- *.
  rewrite Hpc in Hhost, Happ |- *. simpl in Hhost, Happ |- *.
  destruct Hhost as (Hcreate & Hstore & Hunder & Hsub).
  rewrite (renderNodeOn_stores h fields p Hfp); rewrite ?Hty; simpl; try done.
  rewrite (forEach_renderOn h n (kindFor ty) (delete "children" p)); try done.
  pose proof (proj1 (forallb_forall _ _) Hkids) as Hall.
  apply Forall_forall. intros k Hk c HK HP.
  apply IH.
  - apply Hall. by apply list_elem_of_In.
  - by apply (proj1 (Forall_forall _ _) Hsub).
  - by apply Hunder.
Qed.

Lemma accepting_hostMounts n element : hostMounts acceptingHost n element.
Proof.
  revert element. induction n as [|n IH]; intros element; [done|].
  cbn [hostMounts]. repeat split; try done.
  apply Forall_forall. intros k _. apply IH.
Qed.

(** On a well-formed element, [render] returns, and the container has gained
    the mirror of the element as its last child. *)
Lemma render_wellFormed n element container :
  wellFormed n element = true →
  render n element container = Return (appendChild container (hostTreeOf n element)).
Proof.
  intros Hwf. apply renderOn_mounts; [done|apply accepting_hostMounts|done].
Qed.

(** [render] returns what the host's [appendChild] returns for the
    container. *)
Lemma renderOn_appends h n element container container' :
  renderOn h n element container = Return container' →
  ∃ dom, host_appendChild h container dom = Return container'.
Proof.
  destruct n as [|n]; [done|]. simpl.
  destruct (renderNodeOn h element) as [dom0| |]; simpl; try done.
  destruct (getProp element "props") as [props| |]; simpl; try done.
  destruct (getProp props "children") as [children| |]; simpl; try done.
  destruct (forEachChild h (renderOn h n) children dom0) as [dom| |]; simpl; try done.
  intros Hr. by exists dom.
Qed.

Lemma render_appends n element container container' :
  render n element container = Return container' →
  ∃ dom, container' = appendChild container dom.
Proof.
  intros Hr. apply renderOn_appends in Hr as [dom Hr]. exists dom.
  by injection Hr.
Qed.



Lemma forEach_ext {A S : Type} (f g : A → S → result S) (xs : list A) (s : S) :
  (∀ x s', x ∈ xs → f x s' = g x s') → forEach f xs s = forEach g xs s.
Proof.
  revert s. induction xs as [|x xs IH]; intros s Hfg; simpl; [done|].
  rewrite Hfg by by left.
  destruct (g x s) as [s'| |]; simpl; [|done..].
  apply IH. intros y s'' Hy. apply Hfg. by right.
Qed.

Lemma propertyNames_not_children props names name :
  propertyNames props = Return names → name ∈ names → name ≠ "children".
Proof.
  unfold propertyNames, Object_keys.
  destruct (nullish props); [done|]. simpl. intros [= <-] Hin.
  by apply elem_of_property_keys in Hin as [? _].
Qed.

(** The first half of [render] never assigns [children]: two hosts that
    differ only in what they would do with that name give the same result. *)
Lemma renderNodeOn_children_independent h h' element :
  host_createElement h' = host_createElement h →
  (∀ name v dom, name ≠ "children" → host_assign h' name v dom = host_assign h name v dom) →
  renderNodeOn h' element = renderNodeOn h element.
Proof.
  intros Hc Ha. unfold renderNodeOn. rewrite Hc.
  destruct (getProp element "type") as [type| |]; simpl; [|done..].
  destruct (if looseEqMarker type then _ else _) as [dom| |]; simpl; [|done..].
  destruct (getProp element "props") as [props| |]; simpl; [|done..].
  destruct (propertyNames props) as [names| |] eqn:Hn; simpl; [|done..].
  apply forEach_ext. intros name dom' Hin.
  destruct (getProp props name) as [v| |]; simpl; [|done..].
  apply Ha. by eapply propertyNames_not_children.
Qed.

(** One unfolding of [render] on an element with props. *)
Lemma renderOn_step h fuel fields p container :
  fields !! "props" = Some (VObj p) →
  renderOn h (S fuel) (VObj fields) container
  = renderNodeOn h (VObj fields)
    ≫= λ dom, forEachChild h (renderOn h fuel) (default VUndefined (p !! "children")) dom
    ≫= host_appendChild h container.
Proof.
  intros Hfp. cbn [renderOn].
  destruct (renderNodeOn h (VObj fields)) as [dom| |]; [|done..].
  cbn [mbind result_bind]. rewrite (getProp_object (VObj fields)) by done.
  cbn [mbind result_bind ownProps]. rewrite Hfp.
  change (default VUndefined (Some (VObj p))) with (VObj p).
  by rewrite (getProp_object (VObj p)).
Qed.


Lemma descendants_mkNode kind (store : gmap string Value) kids :
  descendants (mkNode kind store kids) = sum_list ((λ k, S (descendants k)) <$> kids).
Proof. simpl. induction kids as [|k kids IH]; simpl; [done|]. by rewrite IH. Qed.

Lemma sum_list_snoc (l : list nat) (x : nat) : sum_list (l ++ [x]) = sum_list l + x.
Proof. induction l as [|y l IH]; simpl; lia. Qed.

Lemma descendants_appendChild container dom :
  descendants (appendChild container dom)
  = descendants container + S (descendants dom).
Proof.
  destruct container as [kind store kids]. unfold appendChild. simpl nodeKind.
  simpl nodeProps. simpl childNodes. rewrite !descendants_mkNode.
  rewrite fmap_app.
  change ((λ k, S (descendants k)) <$> [dom]) with [S (descendants dom)].
  apply sum_list_snoc.
Qed.

Lemma descendants_hostTreeOf n element :
  wellFormed n element = true →
  S (descendants (hostTreeOf n element)) = countElements n element.
Proof.
  revert element. induction n as [|n IH]; intros element Hwf; [done|].
  simpl in Hwf. apply andb_true_iff in Hwf as [_ Hkids].
  cbn [hostTreeOf countElements]. rewrite descendants_mkNode. f_equal.
  destruct (elementChildren element) as [kids|]; [|done]. simpl.
  pose proof (proj1 (forallb_forall _ _) Hkids) as Hall. clear Hkids.
  induction kids as [|k kids IHk]; [done|].
  rewrite !fmap_cons. cbn [sum_list sum_list_with].
  rewrite (IH k) by (apply Hall; by left).
  f_equal. apply IHk. intros x Hx. apply Hall. by right.
Qed.

(** The application of src/index.js:
    [<div style="background: salmon"><h1>Hello world</h1></div>] rendered into
    the container. *)
Example render_index_js :
  let element :=
    createElement (VStr "div") (VObj {[ "style" := VStr "background: salmon" ]})
      [createElement (VStr "h1") VNull [VStr "Hello world"]] in
  render 3 element emptyContainer
  = Return
      (appendChild emptyContainer
         (mkNode (TaggedNode (VStr "div")) {[ "style" := VStr "background: salmon" ]}
            [mkNode (TaggedNode (VStr "h1")) ∅
               [mkNode TextNode {[ "nodeValue" := VStr "Hello world" ]} []]])).
Proof. by vm_compute. Qed.

(** A host that refuses the empty tag name: the exception of
    [document.createElement] comes out of [render], and the container is not
    reached. *)
Example render_refused_tag :
  let strict :=
    mkHost (λ tag, match tag with
                   | VStr EmptyString => Throw (HostError 5)
                   | _ => Return (document_createElement tag)
                   end)
      (host_assign acceptingHost) (host_appendChild acceptingHost)
      (host_call acceptingHost) in
  renderOn strict 1 (createElement (VStr EmptyString) VNull []) emptyContainer
  = Throw (HostError 5)
  ∧ renderOn strict 3 index_element emptyContainer
    = render 3 index_element emptyContainer.
Proof. by vm_compute. Qed.

End Render.

(** ** The work loop, for any unit-of-work procedure *)

Section WorkLoopFacts.

Variable unitOfWork : UnitOfWork.

Implicit Types (w : World) (d : Deadline).

(** The loop leaves the host's queue alone, only appends to the log, and
    skips nothing: when it is entered with a pending fiber and some fuel, that
    fiber is the first one logged. *)
Lemma whileLoop_frame fuel d reads shouldYield w :
  idleCallbacks (whileLoop unitOfWork fuel d reads shouldYield w).2 = idleCallbacks w
  ∧ ∃ more : list Value, processed (whileLoop unitOfWork fuel d reads shouldYield w).2
            = processed w ++ more.
Proof.
  revert reads shouldYield w.
  induction fuel as [|fuel IH]; intros reads shouldYield w; simpl.
  - destruct (truthy _ && negb _); simpl; (split; [done|]); exists [];
      by rewrite app_nil_r.
  - destruct (truthy _ && negb _); simpl;
      [|split; [done|]; exists []; by rewrite app_nil_r].
    destruct (unitOfWork _ _) as [[next|e|] host']; simpl.
    + destruct (IH (S reads) (belowThreshold (timeRemaining d reads))
                  (setCursor next (logProcessed (nextUnitOfWork w) (setHostTree host' w))))
        as [Hq [more Hp]].
      rewrite Hq, Hp. simpl. split; [done|].
      exists ([nextUnitOfWork w] ++ more). by rewrite app_assoc.
    + split; [done|]. by exists [nextUnitOfWork w].
    + split; [done|]. by exists [nextUnitOfWork w].
Qed.

Lemma whileLoop_first fuel d reads w :
  truthy (nextUnitOfWork w) = true →
  ∃ more : list Value, processed (whileLoop unitOfWork (S fuel) d reads false w).2
          = processed w ++ nextUnitOfWork w :: more.
Proof.
  intros Ht. simpl. rewrite Ht. simpl.
  destruct (unitOfWork _ _) as [[next|e|] host']; simpl.
  - destruct (whileLoop_frame fuel d (S reads) (belowThreshold (timeRemaining d reads))
                (setCursor next (logProcessed (nextUnitOfWork w) (setHostTree host' w))))
      as [_ [more Hp]].
    rewrite Hp. simpl. exists more. by rewrite <- app_assoc.
  - by exists [].
  - by exists [].
Qed.

(** A thrown exception comes out of the loop as the very exception the
    processing of the pending fiber threw, with the cursor still on that
    fiber and the host tree as the failed step left it. *)
Lemma whileLoop_throw fuel d reads shouldYield w e w' :
  whileLoop unitOfWork fuel d reads shouldYield w = (Throw e, w') →
  truthy (nextUnitOfWork w') = true
  ∧ last (processed w') = Some (nextUnitOfWork w')
  ∧ ∃ hostBefore, unitOfWork (nextUnitOfWork w') hostBefore = (Throw e, hostTree w').
Proof.
  revert reads shouldYield w.
  induction fuel as [|fuel IH]; intros reads shouldYield w; simpl.
  - by destruct (truthy _ && negb _).
  - destruct (truthy _ && negb _) eqn:Hc; [|done].
    apply andb_true_iff in Hc as [Ht _].
    destruct (unitOfWork _ _) as [[next|e0|] host'] eqn:Hu; simpl.
    + apply IH.
    + intros [= -> <-]. simpl. split; [done|]. split; [by rewrite last_snoc|].
      by exists (hostTree w).
    + done.
Qed.

Lemma workLoopWith_no_work fuel d w :
  truthy (nextUnitOfWork w) = false →
  workLoopWith unitOfWork fuel d w = (Return (), requestIdleCallback CbWorkLoop w).
Proof.
  intros Ht. unfold workLoopWith. by destruct fuel; simpl; rewrite Ht.
Qed.

Lemma workLoopWith_return fuel d w w' :
  workLoopWith unitOfWork fuel d w = (Return (), w') →
  idleCallbacks w' = idleCallbacks w ++ [CbWorkLoop].
Proof.
  unfold workLoopWith.
  pose proof (whileLoop_frame fuel d 0 false w) as [Hq _].
  destruct (whileLoop unitOfWork fuel d 0 false w) as [[[]|e|] w1]; simpl in *;
    [|done..].
  intros [= <-]. simpl. by rewrite Hq.
Qed.

Lemma workLoopWith_throw fuel d w e w' :
  workLoopWith unitOfWork fuel d w = (Throw e, w') →
  whileLoop unitOfWork fuel d 0 false w = (Throw e, w').
Proof.
  unfold workLoopWith.
  destruct (whileLoop unitOfWork fuel d 0 false w) as [[[]|e0|] w1]; simpl;
    by intros [= <- <-] || done.
Qed.

(** With a budget that is spent at once, one step that returns ends the
    invocation. *)
Lemma workLoopWith_one_step fuel d w next host' :
  truthy (nextUnitOfWork w) = true →
  belowThreshold (timeRemaining d 0) = true →
  unitOfWork (nextUnitOfWork w) (hostTree w) = (Return next, host') →
  workLoopWith unitOfWork (S fuel) d w
  = (Return (),
     requestIdleCallback CbWorkLoop
       (setCursor next (logProcessed (nextUnitOfWork w) (setHostTree host' w)))).
Proof.
  intros Ht Hb Hu. unfold workLoopWith. simpl. rewrite Ht, Hu, Hb. simpl.
  destruct fuel; simpl; by rewrite andb_false_r.
Qed.

(** A step that throws on the pending fiber ends the invocation at once. *)
Lemma workLoopWith_first_step_throws fuel d w e host' :
  truthy (nextUnitOfWork w) = true →
  unitOfWork (nextUnitOfWork w) (hostTree w) = (Throw e, host') →
  workLoopWith unitOfWork (S fuel) d w
  = (Throw e, logProcessed (nextUnitOfWork w) (setHostTree host' w)).
Proof.
  intros Ht Hu. unfold workLoopWith. simpl. by rewrite Ht, Hu.
Qed.

(** With an empty queue the host has nothing to call. *)
Lemma idleSlicesWith_empty_queue fuel ds w :
  idleCallbacks w = [] → idleSlicesWith unitOfWork fuel ds w = Some w.
Proof.
  intros Hq. induction ds as [|d ds IH]; [done|].
  simpl. unfold idleSliceWith. by rewrite Hq.
Qed.

(** The loop, unfolded along the units of work it has completed. *)
Lemma whileLoop_reaches d k w w1 :
  loopReaches unitOfWork d k w w1 →
  idleCallbacks w1 = idleCallbacks w
  ∧ ∀ m, whileLoop unitOfWork (k + m) d 0 false w = whileLoop unitOfWork m d k false w1.
Proof.
  induction 1 as [w|k w w1 next host' _ [IHq IH] Ht Hu Hb]; [done|].
  split; [done|]. intros m.
  replace (S k + m) with (k + S m) by lia. rewrite IH.
  cbn [whileLoop]. by rewrite Ht, Hu, Hb.
Qed.

End WorkLoopFacts.

(** ** The work loop of the module, with its empty [performUnitOfWork] *)

Section Scheduler.

Implicit Types (w : World) (d : Deadline) (ds : list Deadline).

Lemma setHostTree_same w : setHostTree (hostTree w) w = w.
Proof. by destruct w. Qed.

Lemma workLoop_advance fuel d w :
  workLoop (S fuel) d w = (Return (), requestIdleCallback CbWorkLoop (advance w)).
Proof.
  unfold workLoop, advance.
  destruct (truthy (nextUnitOfWork w)) eqn:Ht.
  - unfold workLoopWith. simpl. rewrite Ht. simpl.
    rewrite setHostTree_same. by destruct fuel.
  - by apply workLoopWith_no_work.
Qed.

Lemma hostTree_advance w : hostTree (advance w) = hostTree w.
Proof. unfold advance. by destruct (truthy _). Qed.

Lemma idleCallbacks_advance w : idleCallbacks (advance w) = idleCallbacks w.
Proof. unfold advance. by destruct (truthy _). Qed.

Lemma truthy_advance w : truthy (nextUnitOfWork (advance w)) = false.
Proof. unfold advance. by destruct (truthy (nextUnitOfWork w)) eqn:Ht. Qed.

Lemma advance_idle w : truthy (nextUnitOfWork w) = false → advance w = w.
Proof. unfold advance. by intros ->. Qed.

Lemma idleSlice_advance fuel d w :
  idleSlice (S fuel) d w
  = (Return (),
     match idleCallbacks w with
     | [] => w
     | _ :: rest => requestIdleCallback CbWorkLoop (advance (setIdleCallbacks rest w))
     end).
Proof.
  unfold idleSlice, idleSliceWith.
  destruct (idleCallbacks w) as [|[] rest]; [done|].
  apply workLoop_advance.
Qed.

(** Once no fiber is pending, idle periods change neither the cursor, nor the
    log, nor the host tree. *)
Lemma idleSlices_idle fuel ds w :
  truthy (nextUnitOfWork w) = false →
  ∃ w', idleSlices (S fuel) ds w = Some w'
        ∧ nextUnitOfWork w' = nextUnitOfWork w
        ∧ processed w' = processed w
        ∧ hostTree w' = hostTree w
        ∧ length (idleCallbacks w') = length (idleCallbacks w).
Proof.
  revert w. induction ds as [|d ds IH]; intros w Ht; [by exists w|].
  unfold idleSlices in *. simpl.
  fold (idleSlice (S fuel) d w). rewrite idleSlice_advance.
  destruct (idleCallbacks w) as [|cb rest] eqn:Hq.
  - destruct (IH w Ht) as (w' & ? & ? & ? & ? & ?). exists w'. by rewrite <- Hq.
  - rewrite advance_idle by done.
    destruct (IH (requestIdleCallback CbWorkLoop (setIdleCallbacks rest w)) Ht)
      as (w' & Hs & Hc & Hp & Hh & Hl).
    exists w'. repeat split; try done.
    rewrite Hl. simpl. rewrite length_app. simpl. lia.
Qed.

(** The host tree is out of the work loop's reach, whatever the cursor holds
    and however many idle periods pass. *)
Lemma idleSlices_hostTree fuel ds w :
  ∃ w', idleSlices (S fuel) ds w = Some w' ∧ hostTree w' = hostTree w.
Proof.
  revert w. induction ds as [|d ds IH]; intros w; [by exists w|].
  unfold idleSlices in *. simpl.
  fold (idleSlice (S fuel) d w). rewrite idleSlice_advance.
  destruct (idleCallbacks w) as [|cb rest] eqn:Hq; [apply IH|].
  destruct (IH (requestIdleCallback CbWorkLoop (advance (setIdleCallbacks rest w))))
    as (w' & Hs & Hh).
  exists w'. split; [done|]. rewrite Hh. simpl. by rewrite hostTree_advance.
Qed.

(** From a world with a registered callback and a pending fiber, the first
    idle period passes that fiber to [performUnitOfWork] and clears the
    cursor; no later period processes anything. *)
Lemma idleSlices_pending fuel d ds w cb rest :
  idleCallbacks w = cb :: rest →
  truthy (nextUnitOfWork w) = true →
  ∃ w', idleSlices (S fuel) (d :: ds) w = Some w'
        ∧ nextUnitOfWork w' = VUndefined
        ∧ processed w' = processed w ++ [nextUnitOfWork w]
        ∧ hostTree w' = hostTree w.
Proof.
  intros Hq Ht. unfold idleSlices. simpl.
  fold (idleSlice (S fuel) d w). rewrite idleSlice_advance, Hq.
  fold (idleSlices (S fuel) ds
          (requestIdleCallback CbWorkLoop (advance (setIdleCallbacks rest w)))).
  destruct (idleSlices_idle fuel ds
              (requestIdleCallback CbWorkLoop (advance (setIdleCallbacks rest w))))
    as (w' & Hs & Hc & Hp & Hh & _).
  { simpl. apply truthy_advance. }
  exists w'. split; [done|].
  rewrite Hc, Hp, Hh. unfold advance. simpl. by rewrite Ht.
Qed.

(** On a well-formed element the mount entry point returns, having changed
    the host tree and nothing else. *)
Lemma Didact_render_wellFormed n element w :
  wellFormed n element = true →
  Didact_render n element w
  = (Return (), setHostTree (appendChild (hostTree w) (hostTreeOf n element)) w).
Proof.
  intros Hwf. unfold Didact_render, Didact_renderOn.
  change (renderOn acceptingHost) with render. by rewrite render_wellFormed.
Qed.

End Scheduler.

(** * The statements of the specification *)

(** ** Element builder *)

(** C4 (the code at the input where it departs from the statement): [null]
    is a scalar, yet [typeof null] is ['object'], so a [null] child is placed
    in the children sequence as it is, at its position, instead of a TEXT
    element holding it; the entry is not an Element at all, and [render]
    throws on it. *)
Theorem null_child_is_not_wrapped (type props : Value) (before after : list Value) :
  is_scalar VNull = true
  ∧ (∃ kids, elementChildren (createElement type props (before ++ VNull :: after)) = Some kids
             ∧ kids !! length before = Some VNull)
  ∧ ¬ is_text_element_of VNull VNull
  ∧ is_element VNull = false
  ∧ render 2 (createElement (VStr "div") VNull [VNull]) emptyContainer = Throw TypeError.
Proof.
  split; [done|]. split.
  - eexists. split; [apply elementChildren_createElement|].
    rewrite fmap_app, fmap_cons.
    rewrite lookup_app_r by (by rewrite length_fmap).
    by rewrite length_fmap, Nat.sub_diag.
  - split; [by intros [? _]|]. split; [done|]. by vm_compute.
Qed.

(** C5 (as stated, refuted): an array passed as a child has [typeof]
    ['object'] and is kept as it is, so the children sequence holds a raw
    value that is not an Element. *)
Lemma array_child_is_kept_raw :
  elementChildren (createElement (VStr "ul") VNull [VArr [VStr "item"]])
  = Some [VArr [VStr "item"]]
  ∧ is_element (VArr [VStr "item"]) = false.
Proof. split; [apply elementChildren_createElement|done]. Qed.

(** C5 (amended): the children sequence of the returned Element has one
    entry per child, in order: a child whose [typeof] is not ['object'] is
    replaced by the TEXT element holding it, and a child that is an object
    other than [null] is kept as it is; hence, when no child is [null] and
    every child that is an object is a well-formed Element, every entry is a
    well-formed Element. *)
Theorem createElement_children_are_elements (type props : Value) (children : list Value) :
  ∃ kids, elementChildren (createElement type props children) = Some kids
          ∧ length kids = length children
          ∧ (∀ i c, children !! i = Some c → typeof c ≠ "object" →
                    kids !! i = Some (createTextElement c))
          ∧ (∀ i c, children !! i = Some c → typeof c = "object" → c ≠ VNull →
                    kids !! i = Some c)
          ∧ (Forall (λ c, c ≠ VNull ∧ (typeof c = "object" → is_element c = true))
               children →
             Forall (λ k, is_element k = true) kids).
Proof.
  exists (wrapChild <$> children).
  split; [apply elementChildren_createElement|].
  split; [apply length_fmap|].
  split; [|split].
  - intros i c Hi Hc. rewrite list_lookup_fmap, Hi. simpl.
    by rewrite wrapChild_non_object.
  - intros i c Hi Hc _. rewrite list_lookup_fmap, Hi. simpl.
    by rewrite wrapChild_object.
  - intros Hall. apply Forall_fmap. eapply Forall_impl; [exact Hall|].
    intros c [_ Hc]. simpl. unfold wrapChild.
    destruct (String.eqb (typeof c) "object") eqn:Heq; [|done].
    by apply Hc, String.eqb_eq.
Qed.

Lemma createElement_children_are_elements_witness :
  Forall (λ c, c ≠ VNull ∧ (typeof c = "object" → is_element c = true))
    [VStr "bar"; createElement (VStr "b") VNull []; VNum 7; VBool false; VUndefined]
  ∧ ∃ kids,
      elementChildren
        (createElement (VStr "div") (VObj {[ "id" := VStr "foo" ]})
           [VStr "bar"; createElement (VStr "b") VNull []; VNum 7; VBool false; VUndefined])
      = Some kids
      ∧ kids !! 0 = Some (createTextElement (VStr "bar"))
      ∧ kids !! 1 = Some (createElement (VStr "b") VNull [])
      ∧ Forall (λ k, is_element k = true) kids.
Proof.
  assert (H : Forall (λ c, c ≠ VNull ∧ (typeof c = "object" → is_element c = true))
                [VStr "bar"; createElement (VStr "b") VNull []; VNum 7; VBool false;
                 VUndefined]).
  { repeat constructor; simpl; intros; reflexivity || discriminate. }
  split; [exact H|].
  destruct (createElement_children_are_elements (VStr "div")
              (VObj {[ "id" := VStr "foo" ]})
              [VStr "bar"; createElement (VStr "b") VNull []; VNum 7; VBool false;
               VUndefined])
    as (kids & Hk & _ & Htext & Hkept & Hall).
  exists kids. split; [exact Hk|]. split.
  - apply (Htext 0 (VStr "bar")); [reflexivity|discriminate].
  - split; [|exact (Hall H)].
    apply (Hkept 1 (createElement (VStr "b") VNull [])); [reflexivity..|discriminate].
Defined.

(** C10: when the attribute mapping passed to the builder has a [children]
    key of its own, the Element's children are the wrapped variadic children
    (possibly none) and the mapping's value is dropped: the Element is the one
    built from the mapping without that key. *)
Theorem children_key_cannot_be_injected (type props injected : Value)
    (children : list Value) :
  ownProps props !! "children" = Some injected →
  elementChildren (createElement type props children) = Some (wrapChild <$> children)
  ∧ createElement type props children
    = createElement type (VObj (delete "children" (ownProps props))) children.
Proof.
  intros _. split; [apply elementChildren_createElement|].
  unfold createElement. simpl. by rewrite insert_delete_eq.
Qed.

Lemma children_key_cannot_be_injected_witness :
  ownProps (VObj {[ "id" := VStr "foo"; "children" := VStr "injected" ]}) !! "children"
  = Some (VStr "injected")
  ∧ elementChildren
      (createElement (VStr "div")
         (VObj {[ "id" := VStr "foo"; "children" := VStr "injected" ]}) [])
    = Some [].
Proof.
  split; [reflexivity|].
  exact (proj1 (children_key_cannot_be_injected (VStr "div")
                  (VObj {[ "id" := VStr "foo"; "children" := VStr "injected" ]})
                  (VStr "injected") [] eq_refl)).
Defined.

(** ** render *)

(** C9: on a host that creates the node for the kind and stores the
    attributes, the node [render] makes for an Element of kind [kind] with
    props [props] is a text node when the kind is the TEXT marker and a node
    tagged with the kind otherwise; the names assigned on it are the keys of
    the props except [children], each with the value the props give it;
    [children] is never assigned, so that what a host would do with that name
    is immaterial; and this node, once the children are rendered into it, is
    what [render] hands to the container's [appendChild]. *)
Theorem renderNode_materializes (h : Host) (element : Value) (kind : string)
    (props : gmap string Value) :
  elementType element = Some (VStr kind) →
  elementProps element = Some props →
  (String.eqb kind TEXT_ELEMENT = false →
   host_createElement h (VStr kind) = Return (document_createElement (VStr kind))) →
  (∀ name v dom, props !! name = Some v → name ≠ "children" →
     nodeKind dom = kindFor (VStr kind) → childNodes dom = [] →
     host_assign h name v dom = Return (setProperty name v dom)) →
  ∃ dom names,
    renderNodeOn h element = Return dom
    ∧ propertyNames (VObj props) = Return names
    ∧ nodeKind dom = (if String.eqb kind TEXT_ELEMENT then TextNode
                      else TaggedNode (VStr kind))
    ∧ (∀ name v, props !! name = Some v → name ≠ "children" →
                 name ∈ names ∧ nodeProps dom !! name = Some v)
    ∧ ("children" ∉ names)
    ∧ nodeProps dom = delete "children" props
    ∧ (∀ h', host_createElement h' = host_createElement h →
             (∀ name v n, name ≠ "children" →
                          host_assign h' name v n = host_assign h name v n) →
             renderNodeOn h' element = renderNodeOn h element)
    ∧ (∀ fuel container,
         renderOn h (S fuel) element container
         = forEachChild h (renderOn h fuel) (default VUndefined (props !! "children")) dom
           ≫= host_appendChild h container).
Proof.
  intros Hty Hp Hcreate Hstore.
  destruct element as [| | | | | | |fields]; try done. simpl in Hty, Hp.
  destruct (fields !! "props") as [[| | | | | | |p]|] eqn:Hfp; try done.
  injection Hp as ->.
  assert (Hnode : renderNodeOn h (VObj fields)
                  = Return (mkNode (kindFor (VStr kind)) (delete "children" props) [])).
  { rewrite (renderNodeOn_stores h fields props Hfp); rewrite Hty; done. }
  eexists _, _. split; [exact Hnode|]. split; [reflexivity|].
  split; [done|]. split; [|split; [|split; [done|split]]].
  - intros name v Hv Hne. split.
    + apply elem_of_property_keys. split; [done|by eexists].
    + simpl. by rewrite lookup_delete_ne.
  - intros Hin. by apply elem_of_property_keys in Hin as [? _].
  - intros h' Hc Ha. by apply renderNodeOn_children_independent.
  - intros fuel container.
    by rewrite (renderOn_step h fuel fields props container Hfp), Hnode.
Qed.

Lemma renderNode_materializes_witness :
  elementType (createElement (VStr "h1") (VObj {[ "title" := VStr "foo" ]}) [VStr "Hello"])
  = Some (VStr "h1")
  ∧ host_createElement acceptingHost (VStr "h1")
    = Return (document_createElement (VStr "h1"))
  ∧ ∃ dom,
      renderNodeOn acceptingHost
        (createElement (VStr "h1") (VObj {[ "title" := VStr "foo" ]}) [VStr "Hello"])
      = Return dom
      ∧ nodeKind dom = TaggedNode (VStr "h1")
      ∧ nodeProps dom
        = delete "children"
            (<["children" := VArr [createTextElement (VStr "Hello")] ]>
               {[ "title" := VStr "foo" ]}).
Proof.
  split; [reflexivity|]. split; [reflexivity|].
  destruct (renderNode_materializes acceptingHost
              (createElement (VStr "h1") (VObj {[ "title" := VStr "foo" ]}) [VStr "Hello"])
              "h1"
              (<["children" := VArr [createTextElement (VStr "Hello")] ]>
                 {[ "title" := VStr "foo" ]})
              eq_refl eq_refl (λ _, eq_refl) (λ _ _ _ _ _ _ _, eq_refl))
    as (dom & names & Hr & _ & Hk & _ & _ & Hp & _).
  exists dom. split; [exact Hr|]. split; [exact Hk|exact Hp].
Defined.

(** C3 (the code at the input of the statement): after the module is loaded,
    the call of the mount entry point for a lone [div] returns with the host
    tree already changed and with no fiber pending: no root fiber is built
    and nothing is left for the idle periods. *)
Theorem mount_modifies_host_tree_at_once :
  ∃ w', Didact_render 1 (createElement (VStr "div") VNull []) (initialWorld emptyContainer)
        = (Return (), w')
        ∧ hostTree w' ≠ hostTree (initialWorld emptyContainer)
        ∧ truthy (nextUnitOfWork w') = false.
Proof.
  eexists. split.
  - by apply Didact_render_wellFormed.
  - split; [|done]. intros H. by apply (f_equal childNodes) in H.
Qed.

(** ** Scheduler *)

(** C1 (the code at the input of the statement): with the root fiber of the example
    tree pending and a budget of one fiber per invocation, the first
    invocation passes the root fiber to [performUnitOfWork], whose empty body
    returns undefined, and the cursor is cleared; however many invocations
    follow, the log holds the root fiber alone, of the five elements of the
    tree.  Through [Didact.render] itself no fiber is ever pending and
    nothing is logged. *)
Theorem traversal_stops_after_root (n : nat) :
  countElements 3 exampleTree = 5
  ∧ (∃ w', idleSlices 1 (replicate (S n) zeroBudget)
             (setCursor (rootFiber exampleTree) (initialWorld emptyContainer)) = Some w'
           ∧ processed w' = [rootFiber exampleTree]
           ∧ nextUnitOfWork w' = VUndefined)
  ∧ (∃ w1 w2, Didact_render 3 exampleTree (initialWorld emptyContainer) = (Return (), w1)
              ∧ idleSlices 1 (replicate n zeroBudget) w1 = Some w2
              ∧ processed w2 = []).
Proof.
  split; [by vm_compute|]. split.
  - destruct (idleSlices_pending 0 zeroBudget (replicate n zeroBudget)
                (setCursor (rootFiber exampleTree) (initialWorld emptyContainer))
                CbWorkLoop [] eq_refl eq_refl)
      as (w' & Hs & Hc & Hp & _).
    exists w'. by repeat split.
  - eexists. 
    destruct (idleSlices_idle 0 (replicate n zeroBudget)
                (setHostTree (appendChild emptyContainer (hostTreeOf 3 exampleTree))
                   (initialWorld emptyContainer)) eq_refl)
      as (w2 & Hs & _ & Hp & _).
    exists w2. split; [by apply Didact_render_wellFormed; vm_compute|]. by split.
Qed.



(** C6: an invocation of the work loop that finds a fiber pending passes it
    to the unit-of-work procedure before anything else, whatever the
    deadline reports; with a budget that is already below the threshold at
    its first reading, a step that returns is followed by the yield, the
    cursor advanced by that one step. *)
Theorem workLoop_processes_pending_fiber (unitOfWork : UnitOfWork) (fuel : nat)
    (d : Deadline) (w : World) :
  truthy (nextUnitOfWork w) = true →
  (∃ more : list Value,
      processed (workLoopWith unitOfWork (S fuel) d w).2
      = processed w ++ nextUnitOfWork w :: more)
  ∧ (belowThreshold (timeRemaining d 0) = true →
     ∀ next host',
       unitOfWork (nextUnitOfWork w) (hostTree w) = (Return next, host') →
       workLoopWith unitOfWork (S fuel) d w
       = (Return (),
          requestIdleCallback CbWorkLoop
            (setCursor next (logProcessed (nextUnitOfWork w) (setHostTree host' w))))).
Proof.
  intros Ht. split.
  - destruct (whileLoop_first unitOfWork fuel d 0 w Ht) as [more Hp].
    exists more. rewrite <- Hp. unfold workLoopWith.
    by destruct (whileLoop unitOfWork (S fuel) d 0 false w) as [[[]|e|] w1].
  - intros Hb next host' Hu. by apply workLoopWith_one_step.
Qed.

Lemma workLoop_processes_pending_fiber_witness :
  truthy (rootFiber exampleTree) = true
  ∧ ∃ more : list Value,
      processed
        (workLoop 1 zeroBudget
           (setCursor (rootFiber exampleTree) (initialWorld emptyContainer))).2
      = [] ++ rootFiber exampleTree :: more.
Proof.
  split; [reflexivity|].
  exact (proj1 (workLoop_processes_pending_fiber performUnitOfWork 0 zeroBudget
                  (setCursor (rootFiber exampleTree) (initialWorld emptyContainer))
                  eq_refl)).
Defined.

(** C7: when, during an invocation of the work loop, the processing of a
    fiber throws (after any number of units of work that returned), the
    invocation ends with that very exception; the idle callback has not been
    registered again, so that a host whose queue held only this callback
    never calls the scheduler again; and the cursor still holds the fiber
    whose processing failed, the log and the host tree being as the failed
    step left them. *)
Theorem workLoop_failure_is_fatal (unitOfWork : UnitOfWork) (d : Deadline)
    (k m : nat) (w w1 : World) (e : Exn) (host' : Node) :
  loopReaches unitOfWork d k w w1 →
  truthy (nextUnitOfWork w1) = true →
  unitOfWork (nextUnitOfWork w1) (hostTree w1) = (Throw e, host') →
  workLoopWith unitOfWork (k + S m) d w
  = (Throw e, logProcessed (nextUnitOfWork w1) (setHostTree host' w1))
  ∧ idleCallbacks (logProcessed (nextUnitOfWork w1) (setHostTree host' w1))
    = idleCallbacks w
  ∧ nextUnitOfWork (logProcessed (nextUnitOfWork w1) (setHostTree host' w1))
    = nextUnitOfWork w1
  ∧ (idleCallbacks w = [] →
     ∀ fuel' ds,
       idleSlicesWith unitOfWork fuel' ds
         (logProcessed (nextUnitOfWork w1) (setHostTree host' w1))
       = Some (logProcessed (nextUnitOfWork w1) (setHostTree host' w1))).
Proof.
  intros Hreach Ht Hu.
  destruct (whileLoop_reaches unitOfWork d k w w1 Hreach) as [Hq Hloop].
  assert (Hw : whileLoop unitOfWork (k + S m) d 0 false w
               = (Throw e, logProcessed (nextUnitOfWork w1) (setHostTree host' w1))).
  { rewrite Hloop. cbn [whileLoop]. by rewrite Ht, Hu. }
  split; [unfold workLoopWith; by rewrite Hw|].
  split; [done|]. split; [done|].
  intros Hempty fuel' ds. apply idleSlicesWith_empty_queue. simpl. by rewrite Hq.
Qed.

Lemma workLoop_failure_is_fatal_witness :
  let second : UnitOfWork :=
    λ fiber host, match fiber with
                  | VNum 1 => (Return (VNum 2), host)
                  | _ => (Throw (HostError 1), host)
                  end in
  let d := mkDeadline (λ _, 50%Q) in
  let w := mkWorld (VNum 1) [] emptyContainer [] in
  let w1 := mkWorld (VNum 2) [] emptyContainer [VNum 1] in
  loopReaches second d 1 w w1
  ∧ workLoopWith second 5 d w = (Throw (HostError 1), mkWorld (VNum 2) [] emptyContainer [VNum 1; VNum 2])
  ∧ idleSlicesWith second 3 [d; d]
      (mkWorld (VNum 2) [] emptyContainer [VNum 1; VNum 2])
    = Some (mkWorld (VNum 2) [] emptyContainer [VNum 1; VNum 2]).
Proof.
  intros second d w w1.
  assert (Hreach : loopReaches second d 1 w w1).
  { apply (reaches_next second d 0 w w (VNum 2) emptyContainer);
      [apply reaches_entry|reflexivity..]. }
  split; [exact Hreach|].
  destruct (workLoop_failure_is_fatal second d 1 3 w w1 (HostError 1) emptyContainer
              Hreach eq_refl eq_refl)
    as (Hw & _ & _ & Hstuck).
  split; [exact Hw|]. exact (Hstuck eq_refl 3 [d; d]).
Defined.

(** C8: whenever the work loop returns, the host's idle queue holds exactly
    one more registration of the work loop than at the call; with no fiber
    pending the loop returns at once, and the module's own work loop returns
    on every call. *)
Theorem workLoop_rearms_once (unitOfWork : UnitOfWork) (fuel : nat) (d : Deadline)
    (w : World) :
  (∀ w', workLoopWith unitOfWork fuel d w = (Return (), w') →
         idleCallbacks w' = idleCallbacks w ++ [CbWorkLoop])
  ∧ (truthy (nextUnitOfWork w) = false →
     workLoopWith unitOfWork fuel d w = (Return (), requestIdleCallback CbWorkLoop w))
  ∧ (∃ w', workLoop (S fuel) d w = (Return (), w')
           ∧ idleCallbacks w' = idleCallbacks w ++ [CbWorkLoop]).
Proof.
  split; [|split].
  - intros w'. apply workLoopWith_return.
  - apply workLoopWith_no_work.
  - eexists. split; [apply workLoop_advance|].
    simpl. by rewrite idleCallbacks_advance.
Qed.

Lemma workLoop_rearms_once_witness :
  idleCallbacks (workLoop 0 zeroBudget (mkWorld VNull [] emptyContainer [])).2
  = [CbWorkLoop]
  ∧ ∃ w', workLoop 1 zeroBudget
            (setIdleCallbacks [] (setCursor (rootFiber exampleTree)
                                    (initialWorld emptyContainer)))
          = (Return (), w')
          ∧ idleCallbacks w' = [CbWorkLoop].
Proof.
  split.
  - exact (proj1 (workLoop_rearms_once performUnitOfWork 0 zeroBudget
                    (mkWorld VNull [] emptyContainer []))
             _ eq_refl).
  - exact (proj2 (proj2 (workLoop_rearms_once performUnitOfWork 0 zeroBudget
                           (setIdleCallbacks [] (setCursor (rootFiber exampleTree)
                                                   (initialWorld emptyContainer)))))).
Defined.

(** * Further properties of the code *)

(** ** createElement and createTextElement *)

Section BuilderMore.

Implicit Types (type props child : Value) (children : list Value).

Lemma typeof_wrapChild child : typeof (wrapChild child) = "object".
Proof. by destruct child. Qed.

Lemma wrapChild_idemp child : wrapChild (wrapChild child) = wrapChild child.
Proof. apply wrapChild_object, typeof_wrapChild. Qed.

Lemma wrapChild_fmap_idemp children :
  wrapChild <$> (wrapChild <$> children) = wrapChild <$> children.
Proof.
  rewrite <- list_fmap_compose. apply list_fmap_ext.
  intros i c _. apply wrapChild_idemp.
Qed.

Lemma wellFormed_createTextElement d text :
  wellFormed (S d) (createTextElement text) = true.
Proof. reflexivity. Qed.

Lemma wellFormed_wrapChild d child :
  (typeof child = "object" → wellFormed (S d) child = true) →
  wellFormed (S d) (wrapChild child) = true.
Proof.
  intros H. unfold wrapChild.
  destruct (String.eqb (typeof child) "object") eqn:Heq.
  - by apply H, String.eqb_eq.
  - apply wellFormed_createTextElement.
Qed.

Lemma elementAttributes_createElement type props children :
  elementAttributes (createElement type props children)
  = Some (delete "children" (ownProps props)).
Proof.
  unfold elementAttributes. rewrite elementProps_createElement. simpl.
  by rewrite delete_insert_eq.
Qed.

Lemma hostTreeOf_createElement d type props children :
  hostTreeOf (S d) (createElement type props children)
  = mkNode (kindFor type) (delete "children" (ownProps props))
      (hostTreeOf d <$> (wrapChild <$> children)).
Proof.
  cbn [hostTreeOf].
  rewrite elementType_createElement, elementChildren_createElement,
    elementProps_createElement. simpl. by rewrite delete_insert_eq.
Qed.

Lemma wellFormed_createElement d type props children :
  Forall (λ c, typeof c = "object" → wellFormed (S d) c = true) children →
  wellFormed (S (S d)) (createElement type props children) = true.
Proof.
  intros Hall. cbn [wellFormed].
  rewrite is_element_createElement, elementChildren_createElement. simpl.
  apply forallb_forall. intros k Hk.
  apply list_elem_of_In, list_elem_of_fmap in Hk as (c & -> & Hc).
  apply wellFormed_wrapChild. by eapply (proj1 (Forall_forall _ _) Hall).
Qed.

End BuilderMore.

(** X1: the attributes given to the builder come back unchanged: the props of
    the Element are the own properties of the [props] argument, with only the
    [children] entry replaced; with [null] or [undefined] for [props] the
    Element has no attribute at all. *)
Theorem createElement_keeps_attributes (type props : Value) (children : list Value) :
  elementAttributes (createElement type props children)
  = Some (delete "children" (ownProps props))
  ∧ (nullish props = true →
     elementProps (createElement type props children)
     = Some {[ "children" := VArr (wrapChild <$> children) ]})
  ∧ (∀ key v, key ≠ "children" → ownProps props !! key = Some v →
       ∃ p, elementProps (createElement type props children) = Some p
            ∧ p !! key = Some v).
Proof.
  split; [|split].
  - apply elementAttributes_createElement.
  - intros Hn. rewrite elementProps_createElement. by destruct props.
  - intros key v Hne Hv. eexists. split; [apply elementProps_createElement|].
    by rewrite lookup_insert_ne.
Qed.

Lemma createElement_keeps_attributes_witness :
  nullish VUndefined = true
  ∧ elementProps (createElement (VStr "b") VUndefined [])
    = Some {[ "children" := VArr [] ]}
  ∧ ∃ p, elementProps
           (createElement (VStr "div") (VObj {[ "id" := VStr "foo" ]}) [VStr "bar"])
         = Some p
         ∧ p !! "id" = Some (VStr "foo").
Proof.
  split; [reflexivity|]. split.
  - exact (proj1 (proj2 (createElement_keeps_attributes (VStr "b") VUndefined []))
             eq_refl).
  - refine (proj2 (proj2 (createElement_keeps_attributes (VStr "div")
                            (VObj {[ "id" := VStr "foo" ]}) [VStr "bar"]))
              "id" (VStr "foo") _ eq_refl).
    discriminate.
Defined.

(** X2: building an Element again from the kind, the attributes and the
    children of an Element the builder returned gives the same Element: the
    children, already wrapped, are not wrapped a second time. *)
Theorem createElement_rebuild (type props : Value) (children : list Value) :
  ∃ attrs kids,
    elementAttributes (createElement type props children) = Some attrs
    ∧ elementChildren (createElement type props children) = Some kids
    ∧ createElement type (VObj attrs) kids = createElement type props children.
Proof.
  eexists _, _. split; [apply elementAttributes_createElement|].
  split; [apply elementChildren_createElement|].
  unfold createElement. simpl.
  by rewrite wrapChild_fmap_idemp, insert_delete_eq.
Qed.

(** ** render *)


(** X3: on a host that grants what mounting asks for, an Element made by the
    builder from children that are not of type ['object'] or are well-formed
    Elements is rendered without an error: the container gains one node of
    the Element's kind, carrying the attributes given to the builder, with
    one child node per child in order, a text node holding the value for each
    child that was wrapped. *)
Theorem createElement_renders (h : Host) (d : nat) (type props : Value)
    (children : list Value) (container : Node) :
  Forall (λ c, typeof c = "object" → wellFormed (S d) c = true) children →
  hostMounts h (S (S d)) (createElement type props children) →
  host_appendChild h container (hostTreeOf (S (S d)) (createElement type props children))
  = Return (appendChild container
              (hostTreeOf (S (S d)) (createElement type props children))) →
  renderOn h (S (S d)) (createElement type props children) container
  = Return (appendChild container
              (mkNode (kindFor type) (delete "children" (ownProps props))
                 (hostTreeOf (S d) <$> (wrapChild <$> children))))
  ∧ ∀ c, typeof c ≠ "object" →
         hostTreeOf (S d) (wrapChild c) = mkNode TextNode {[ "nodeValue" := c ]} [].
Proof.
  intros Hall Hhost Happ. split.
  - rewrite renderOn_mounts; [|by apply wellFormed_createElement|done..].
    by rewrite hostTreeOf_createElement.
  - intros c Hc. by rewrite wrapChild_non_object.
Qed.

Lemma createElement_renders_witness :
  Forall (λ c, typeof c = "object" → wellFormed 1 c = true)
    [VStr "Hello"; createElement (VStr "b") VNull []]
  ∧ renderOn acceptingHost 2
      (createElement (VStr "h1") (VObj {[ "title" := VStr "foo" ]})
         [VStr "Hello"; createElement (VStr "b") VNull []]) emptyContainer
    = Return (appendChild emptyContainer
                (mkNode (kindFor (VStr "h1"))
                   (delete "children" (ownProps (VObj {[ "title" := VStr "foo" ]})))
                   (hostTreeOf 1 <$> (wrapChild <$>
                      [VStr "Hello"; createElement (VStr "b") VNull []])))).
Proof.
  assert (H : Forall (λ c, typeof c = "object" → wellFormed 1 c = true)
                [VStr "Hello"; createElement (VStr "b") VNull []]).
  { repeat constructor; simpl; intros; reflexivity || discriminate. }
  split; [exact H|].
  exact (proj1 (createElement_renders acceptingHost 0 (VStr "h1")
                  (VObj {[ "title" := VStr "foo" ]}) _ emptyContainer H
                  (accepting_hostMounts _ _) eq_refl)).
Defined.

(** X4: a text element is rendered with two requests to the host and no
    other: [nodeValue] is assigned on a fresh text node, and the node is
    appended to the container.  When the host stores the one and grants the
    other, the container gains a childless text node whose only assigned
    property is [nodeValue], holding the wrapped value. *)
Theorem createTextElement_renders (h : Host) (fuel : nat) (text : Value)
    (container : Node) :
  host_assign h "nodeValue" text document_createTextNode
  = Return (setProperty "nodeValue" text document_createTextNode) →
  host_appendChild h container (mkNode TextNode {[ "nodeValue" := text ]} [])
  = Return (appendChild container (mkNode TextNode {[ "nodeValue" := text ]} [])) →
  renderOn h (S fuel) (createTextElement text) container
  = Return (appendChild container (mkNode TextNode {[ "nodeValue" := text ]} [])).
Proof.
  intros Hset Happ. unfold createTextElement.
  rewrite (renderOn_step h fuel _ {[ "nodeValue" := text; "children" := VArr [] ]})
    by reflexivity.
  assert (Hnode : renderNodeOn h
                    (VObj {[ "type" := VStr TEXT_ELEMENT;
                             "props" := VObj {[ "nodeValue" := text;
                                                "children" := VArr [] ]} ]})
                  = Return (mkNode TextNode {[ "nodeValue" := text ]} [])).
  { unfold renderNodeOn. rewrite !getProp_object by done.
    cbn [mbind result_bind].
    change (host_assign h "nodeValue" text document_createTextNode
            ≫= (λ dom, Return dom)
            = Return (mkNode TextNode {[ "nodeValue" := text ]} [])).
    by rewrite Hset. }
  rewrite Hnode. exact Happ.
Qed.

Lemma createTextElement_renders_witness :
  host_assign acceptingHost "nodeValue" (VStr "Hello") document_createTextNode
  = Return (setProperty "nodeValue" (VStr "Hello") document_createTextNode)
  ∧ renderOn acceptingHost 1 (createTextElement (VStr "Hello")) emptyContainer
    = Return (appendChild emptyContainer
                (mkNode TextNode {[ "nodeValue" := VStr "Hello" ]} [])).
Proof.
  split; [reflexivity|].
  exact (createTextElement_renders acceptingHost 0 (VStr "Hello") emptyContainer
           eq_refl eq_refl).
Defined.

(** X5: whenever [render] returns, the container has exactly one more child,
    placed last; the children it had, their order, its kind and its
    properties are as before. *)
Theorem render_only_appends (fuel : nat) (element : Value) (container container' : Node) :
  render fuel element container = Return container' →
  (∃ dom, childNodes container' = childNodes container ++ [dom])
  ∧ nodeKind container' = nodeKind container
  ∧ nodeProps container' = nodeProps container.
Proof.
  intros Hr. apply render_appends in Hr as (dom & ->).
  split; [by exists dom|done].
Qed.

Lemma render_only_appends_witness :
  let container := appendChild emptyContainer document_createTextNode in
  let container' := appendChild container (hostTreeOf 3 index_element) in
  render 3 index_element container = Return container'
  ∧ ∃ dom, childNodes container' = childNodes container ++ [dom].
Proof.
  intros container container'.
  assert (H : render 3 index_element container = Return container').
  { apply render_wellFormed. vm_compute. reflexivity. }
  split; [exact H|].
  exact (proj1 (render_only_appends 3 index_element container container' H)).
Defined.

(** X6: rendering is not idempotent: on a host that grants what mounting asks
    for, both times, rendering the same well-formed Element into the same
    container a second time appends a second, equal subtree after the
    first. *)
Theorem render_twice_duplicates (h : Host) (n : nat) (element : Value)
    (container : Node) :
  wellFormed n element = true →
  hostMounts h n element →
  host_appendChild h container (hostTreeOf n element)
  = Return (appendChild container (hostTreeOf n element)) →
  host_appendChild h (appendChild container (hostTreeOf n element)) (hostTreeOf n element)
  = Return (appendChild (appendChild container (hostTreeOf n element))
              (hostTreeOf n element)) →
  renderOn h n element container ≫= renderOn h n element
  = Return (appendChild (appendChild container (hostTreeOf n element))
              (hostTreeOf n element)).
Proof.
  intros Hwf Hhost Hfirst Hsecond. rewrite renderOn_mounts by done. simpl.
  by rewrite renderOn_mounts.
Qed.

Lemma render_twice_duplicates_witness :
  wellFormed 3 index_element = true
  ∧ renderOn acceptingHost 3 index_element emptyContainer
    ≫= renderOn acceptingHost 3 index_element
    = Return (appendChild (appendChild emptyContainer (hostTreeOf 3 index_element))
                (hostTreeOf 3 index_element)).
Proof.
  split; [vm_compute; reflexivity|].
  apply (render_twice_duplicates acceptingHost 3 index_element emptyContainer);
    [vm_compute; reflexivity|apply accepting_hostMounts|reflexivity..].
Defined.

(** X7: on a host that grants what mounting asks for and stores the props
    without further effect, rendering a well-formed Element returns and
    leaves exactly one host node per Element of the tree, the root Element
    included. *)
Theorem render_node_count (h : Host) (n : nat) (element : Value) (container : Node) :
  wellFormed n element = true →
  hostMounts h n element →
  host_appendChild h container (hostTreeOf n element)
  = Return (appendChild container (hostTreeOf n element)) →
  ∃ container', renderOn h n element container = Return container'
                ∧ descendants container'
                  = descendants container + countElements n element.
Proof.
  intros Hwf Hhost Happ. eexists. split; [by apply renderOn_mounts|].
  rewrite descendants_appendChild. by rewrite descendants_hostTreeOf.
Qed.

Lemma render_node_count_witness :
  wellFormed 3 exampleTree = true
  ∧ ∃ container', renderOn acceptingHost 3 exampleTree emptyContainer = Return container'
                  ∧ descendants container' = 5.
Proof.
  split; [vm_compute; reflexivity|].
  destruct (render_node_count acceptingHost 3 exampleTree emptyContainer)
    as (c' & Hr & Hd);
    [vm_compute; reflexivity|apply accepting_hostMounts|reflexivity|].
  exists c'. split; [exact Hr|]. rewrite Hd. vm_compute. reflexivity.
Defined.





(** ** workLoop and the idle callbacks *)

Section WorkLoopMore.

Variable unitOfWork : UnitOfWork.

Implicit Types (w : World) (d : Deadline).

(** What a normal return of the loop tells: [k] fibers were processed, every
    reading but the last of the [k] was at least the threshold, and the loop
    ended on a falsy cursor or on a last reading below the threshold. *)
Lemma whileLoop_return fuel d reads shouldYield w w' :
  whileLoop unitOfWork fuel d reads shouldYield w = (Return (), w') →
  ∃ k, length (processed w') = length (processed w) + k
       ∧ (∀ i, S i < k → belowThreshold (timeRemaining d (reads + i)) = false)
       ∧ (k = 0 → w' = w ∧ (truthy (nextUnitOfWork w) = false ∨ shouldYield = true))
       ∧ (0 < k → shouldYield = false
                  ∧ (truthy (nextUnitOfWork w') = false
                     ∨ belowThreshold (timeRemaining d (reads + k - 1)) = true)).
Proof.
  revert reads shouldYield w.
  induction fuel as [|fuel IH]; intros reads shouldYield w; simpl.
  - destruct (truthy _ && negb _) eqn:Hc; [done|]. intros [= <-].
    exists 0. split; [lia|]. split; [lia|]. split; [|lia].
    intros _. split; [done|].
    apply andb_false_iff in Hc as [?|?%negb_false_iff]; [by left|by right].
  - destruct (truthy _ && negb _) eqn:Hc.
    + apply andb_true_iff in Hc as [Ht Hy%negb_true_iff].
      destruct (unitOfWork _ _) as [[next|e|] host']; [|done..].
      intros Hw. apply IH in Hw as (k & Hlen & Hbefore & Hzero & Hpos).
      exists (S k). simpl in Hlen. rewrite length_app in Hlen. simpl in Hlen.
      split; [lia|]. split; [|split; [lia|]].
      * intros [|i] Hi.
        -- rewrite Nat.add_0_r. destruct Hpos as [Hs _]; [lia|done].
        -- replace (reads + S i) with (S reads + i) by lia. apply Hbefore. lia.
      * intros _. split; [done|].
        destruct k as [|k].
        -- destruct Hzero as [-> [Hf|Hs]]; [done|by left|right].
           by replace (reads + 1 - 1) with reads by lia.
        -- destruct Hpos as [_ [Hf|Hb]]; [lia|by left|right].
           by replace (reads + S (S k) - 1) with (S reads + S k - 1) by lia.
    + intros [= <-]. exists 0. split; [lia|]. split; [lia|]. split; [|lia].
      intros _. split; [done|].
      apply andb_false_iff in Hc as [?|?%negb_false_iff]; [by left|by right].
Qed.

(** A reading below the threshold bounds the loop when every step returns. *)
Lemma whileLoop_yields_by k d reads shouldYield w :
  (∀ fiber host, ∃ next host', unitOfWork fiber host = (Return next, host')) →
  belowThreshold (timeRemaining d (reads + k)) = true →
  ∃ w', whileLoop unitOfWork (S k) d reads shouldYield w = (Return (), w')
        ∧ (length (processed w') ≤ length (processed w) + S k)%nat.
Proof.
  intros Hret. revert reads shouldYield w.
  induction k as [|k IH]; intros reads shouldYield w Hb.
  - rewrite Nat.add_0_r in Hb. cbn [whileLoop].
    destruct (truthy _ && negb _); [|exists w; split; [done|lia]].
    destruct (Hret (nextUnitOfWork w) (hostTree w)) as (next & host' & ->).
    rewrite Hb, andb_false_r. eexists. split; [done|].
    simpl. rewrite length_app. simpl. lia.
  - change (whileLoop unitOfWork (S (S k)) d reads shouldYield w)
      with (if truthy (nextUnitOfWork w) && negb shouldYield
            then let '(r, host') := unitOfWork (nextUnitOfWork w) (hostTree w) in
                 let w1 := logProcessed (nextUnitOfWork w) (setHostTree host' w) in
                 match r with
                 | Return next =>
                     whileLoop unitOfWork (S k) d (S reads)
                       (belowThreshold (timeRemaining d reads)) (setCursor next w1)
                 | Throw e => (Throw e, w1)
                 | OutOfFuel => (OutOfFuel, w1)
                 end
            else (Return (), w)).
    destruct (truthy _ && negb _); [|exists w; split; [done|lia]].
    destruct (Hret (nextUnitOfWork w) (hostTree w)) as (next & host' & ->).
    destruct (IH (S reads) (belowThreshold (timeRemaining d reads))
                (setCursor next
                   (logProcessed (nextUnitOfWork w) (setHostTree host' w))))
      as (w' & Hw & Hlen).
    { by replace (S reads + k) with (reads + S k) by lia. }
    exists w'. split; [done|].
    simpl in Hlen. rewrite length_app in Hlen. simpl in Hlen. lia.
Qed.

(** With fibers that never run out and a deadline that never drops below the
    threshold, no number of iterations ends the loop. *)
Lemma whileLoop_never_yields fuel d reads w :
  (∀ fiber host, ∃ next host',
      unitOfWork fiber host = (Return next, host') ∧ truthy next = true) →
  (∀ i, belowThreshold (timeRemaining d i) = false) →
  truthy (nextUnitOfWork w) = true →
  (whileLoop unitOfWork fuel d reads false w).1 = OutOfFuel.
Proof.
  intros Hret Hd. revert reads w.
  induction fuel as [|fuel IH]; intros reads w Ht; simpl; rewrite Ht; simpl; [done|].
  destruct (Hret (nextUnitOfWork w) (hostTree w)) as (next & host' & -> & Hn).
  rewrite Hd. by apply IH.
Qed.

End WorkLoopMore.

(** X10: an idle period keeps the host's queue in balance: when the callback
    returns, the queue is as long as before (the registration taken off is
    put back once); when it throws, one registration is lost; the queue never
    grows. *)
Theorem idle_slice_queue_balance (unitOfWork : UnitOfWork) (fuel : nat) (d : Deadline)
    (w w' : World) (r : result unit) :
  idleSliceWith unitOfWork fuel d w = (r, w') →
  (r = Return () → length (idleCallbacks w') = length (idleCallbacks w))
  ∧ (∀ e, r = Throw e → S (length (idleCallbacks w')) = length (idleCallbacks w)).
Proof.
  unfold idleSliceWith.
  destruct (idleCallbacks w) as [|[] rest] eqn:Hq.
  - intros [= <- <-]. split; [by rewrite Hq|done].
  - intros Hw. split.
    + intros ->. apply workLoopWith_return in Hw. rewrite Hw. simpl.
      rewrite length_app. simpl. lia.
    + intros e ->. apply workLoopWith_throw in Hw.
      pose proof (whileLoop_frame unitOfWork fuel d 0 false (setIdleCallbacks rest w))
        as [Hf _].
      rewrite Hw in Hf. simpl in Hf. by rewrite Hf.
Qed.

Lemma idle_slice_queue_balance_witness :
  let failing : UnitOfWork := λ fiber host, (Throw (HostError 1), host) in
  let w := setCursor (rootFiber exampleTree) (initialWorld emptyContainer) in
  length (idleCallbacks (idleSlice 1 zeroBudget w).2) = 1
  ∧ S (length (idleCallbacks (idleSliceWith failing 1 zeroBudget w).2)) = 1.
Proof.
  intros failing w. split.
  - exact (proj1 (idle_slice_queue_balance performUnitOfWork 1 zeroBudget w _ _ eq_refl)
             eq_refl).
  - exact (proj2 (idle_slice_queue_balance failing 1 zeroBudget w _ _ eq_refl)
             (HostError 1) eq_refl).
Defined.

(** X11: in the application, whatever elements are rendered (with or without
    an error) and however many idle periods pass, no fiber is ever pending,
    [performUnitOfWork] is never called, and exactly one registration of the
    work loop is waiting in the host's queue. *)
Theorem application_never_schedules_work (container : Node) (w : World) :
  reachable container w →
  nextUnitOfWork w = VNull
  ∧ processed w = []
  ∧ idleCallbacks w = [CbWorkLoop].
Proof.
  induction 1 as [|w fuel element _ (Hc & Hp & Hq)|w fuel d _ (Hc & Hp & Hq)].
  - done.
  - unfold Didact_render, Didact_renderOn.
    by destruct (renderOn acceptingHost fuel element (hostTree w)).
  - rewrite idleSlice_advance, Hq. simpl.
    rewrite advance_idle by (simpl; by rewrite Hc). simpl. by rewrite Hc, Hp.
Qed.

Lemma application_never_schedules_work_witness :
  let w := (idleSlice 1 zeroBudget
              (Didact_render 3 index_element (initialWorld emptyContainer)).2).2 in
  reachable emptyContainer w
  ∧ nextUnitOfWork w = VNull ∧ processed w = [] ∧ idleCallbacks w = [CbWorkLoop].
Proof.
  intros w.
  assert (H : reachable emptyContainer w)
    by (apply reach_idle, reach_render, reach_load).
  split; [exact H|].
  exact (application_never_schedules_work emptyContainer w H).
Defined.

(** X12: when every unit of work returns and the deadline reports less than
    the threshold at its [k]-th reading (counted from 0), the invocation
    returns after at most [k + 1] units of work. *)
Theorem workLoop_yields_by_deadline (unitOfWork : UnitOfWork) (k : nat) (d : Deadline)
    (w : World) :
  (∀ fiber host, ∃ next host', unitOfWork fiber host = (Return next, host')) →
  belowThreshold (timeRemaining d k) = true →
  ∃ w', workLoopWith unitOfWork (S k) d w = (Return (), w')
        ∧ (length (processed w') ≤ length (processed w) + S k)%nat.
Proof.
  intros Hret Hb.
  destruct (whileLoop_yields_by unitOfWork k d 0 false w Hret Hb) as (w1 & Hw & Hlen).
  unfold workLoopWith. rewrite Hw. by eexists.
Qed.

Lemma workLoop_yields_by_deadline_witness :
  let same : UnitOfWork := λ fiber host, (Return fiber, host) in
  let d := mkDeadline (λ i, if (i <? 2)%nat then 5%Q else 0%Q) in
  let w := setCursor (rootFiber exampleTree) (initialWorld emptyContainer) in
  belowThreshold (timeRemaining d 2) = true
  ∧ ∃ w', workLoopWith same 3 d w = (Return (), w')
          ∧ (length (processed w') ≤ 3)%nat.
Proof.
  intros same d w. split; [reflexivity|].
  apply (workLoop_yields_by_deadline same 2 d w); [|reflexivity].
  intros fiber host. by exists fiber, host.
Defined.

(** X13: when an invocation of the work loop returns after [k] units of work,
    either no fiber is pending any more or the reading taken after the last
    unit was below the threshold; every reading taken before that one was at
    least the threshold, and no reading is taken when nothing is processed. *)
Theorem workLoop_return_condition (unitOfWork : UnitOfWork) (fuel : nat) (d : Deadline)
    (w w' : World) :
  workLoopWith unitOfWork fuel d w = (Return (), w') →
  ∃ k, length (processed w') = length (processed w) + k
       ∧ (∀ i, S i < k → belowThreshold (timeRemaining d i) = false)
       ∧ (truthy (nextUnitOfWork w') = false
          ∨ (0 < k ∧ belowThreshold (timeRemaining d (k - 1)) = true)).
Proof.
  unfold workLoopWith.
  destruct (whileLoop unitOfWork fuel d 0 false w) as [[[]|e|] w1] eqn:Hw; [|done..].
  intros [= <-].
  apply whileLoop_return in Hw as (k & Hlen & Hbefore & Hzero & Hpos).
  exists k. split; [done|]. split; [exact Hbefore|].
  destruct k as [|k].
  - destruct Hzero as [-> [Hf|Hs]]; [done|by left|done].
  - destruct Hpos as [_ [Hf|Hb]]; [lia|by left|right].
    split; [lia|]. exact Hb.
Qed.

Lemma workLoop_return_condition_witness :
  let same : UnitOfWork := λ fiber host, (Return fiber, host) in
  let d := mkDeadline (λ i, if (i <? 2)%nat then 5%Q else 0%Q) in
  let w := setCursor (rootFiber exampleTree) (initialWorld emptyContainer) in
  ∃ w', workLoopWith same 5 d w = (Return (), w')
        ∧ ∃ k, length (processed w') = length (processed w) + k
               ∧ (truthy (nextUnitOfWork w') = false
                  ∨ (0 < k ∧ belowThreshold (timeRemaining d (k - 1)) = true)).
Proof.
  intros same d w. eexists. split; [reflexivity|].
  destruct (workLoop_return_condition same 5 d w _ eq_refl) as (k & Hlen & _ & Hend).
  exists k. split; [exact Hlen|exact Hend].
Defined.

(** X14: the loop has no bound of its own: with a unit of work that always
    returns a fiber and a deadline that never reports less than the
    threshold, an invocation entered with a pending fiber does not return,
    whatever number of iterations it is given. *)
Theorem workLoop_never_yields (unitOfWork : UnitOfWork) (fuel : nat) (d : Deadline)
    (w : World) :
  (∀ fiber host, ∃ next host',
      unitOfWork fiber host = (Return next, host') ∧ truthy next = true) →
  (∀ i, belowThreshold (timeRemaining d i) = false) →
  truthy (nextUnitOfWork w) = true →
  (workLoopWith unitOfWork fuel d w).1 = OutOfFuel.
Proof.
  intros Hret Hd Ht.
  pose proof (whileLoop_never_yields unitOfWork fuel d 0 w Hret Hd Ht) as Hw.
  unfold workLoopWith.
  by destruct (whileLoop unitOfWork fuel d 0 false w) as [[[]|e|] w1].
Qed.

Lemma workLoop_never_yields_witness :
  let again : UnitOfWork := λ fiber host, (Return (rootFiber exampleTree), host) in
  let d := mkDeadline (λ _, 50%Q) in
  let w := setCursor (rootFiber exampleTree) (initialWorld emptyContainer) in
  truthy (nextUnitOfWork w) = true
  ∧ (workLoopWith again 7 d w).1 = OutOfFuel.
Proof.
  intros again d w. split; [reflexivity|].
  apply (workLoop_never_yields again 7 d w); [|reflexivity..].
  intros fiber host. by exists (rootFiber exampleTree), host.
Defined.

(** X15: the application of src/index.js: the call of [Didact.render] returns
    with the [div], its [style] and, below it, the [h1] and its text node
    appended to the container; the idle periods that follow change nothing
    and process nothing. *)
Theorem index_js_mounts (container : Node) (ds : list Deadline) :
  ∃ w1, index_js 3 container = (Return (), w1)
        ∧ hostTree w1
          = appendChild container
              (mkNode (TaggedNode (VStr "div"))
                 {[ "style" := VStr "background: salmon" ]}
                 [mkNode (TaggedNode (VStr "h1")) ∅
                    [mkNode TextNode {[ "nodeValue" := VStr "Hello world" ]} []]])
        ∧ ∃ w2, idleSlices 1 ds w1 = Some w2
                ∧ hostTree w2 = hostTree w1
                ∧ processed w2 = []
                ∧ nextUnitOfWork w2 = VNull.
Proof.
  eexists. split; [|split].
  - unfold index_js. apply Didact_render_wellFormed. by vm_compute.
  - cbn [hostTree setHostTree]. f_equal.
  - destruct (idleSlices_idle 0 ds
                (setHostTree (appendChild (hostTree (initialWorld container))
                                (hostTreeOf 3 index_element))
                   (initialWorld container)) eq_refl)
      as (w2 & Hs & Hc & Hp & Hh & _).
    by exists w2.
Qed.
